(** * BSCS-Notes: the algorithm exercises and class mock-ups, embedded and verified

  Part I embeds the C++ sources, one module per source file.
  Part II states and proves the properties of those embeddings. *)

From Stdlib Require Import ZArith Lia Bool String Ascii DecimalString PrimFloat.
From Stdlib Require Import Sorted Permutation.
From stdpp Require Import base list sorting.

Local Open Scope Z_scope.

(* ===================================================================== *)
(** * Part I: the embedded programs                                       *)
(* ===================================================================== *)

(** ** How a call ends

  Normally, with a result; in an operation that C++ leaves undefined (an
  access outside a vector or a string, a division by zero); or, for the
  loops modelled with fuel, with the fuel used up. *)

Inductive outcome (A : Type) : Type :=
| Done (a : A)
| Undefined
| OutOfFuel.

Arguments Done {A} a.
Arguments Undefined {A}.
Arguments OutOfFuel {A}.

(** ** The C++ [int]: 32 bits, two's complement *)

Module Int32.

Definition INT_MIN : Z := -2147483648.
Definition INT_MAX : Z := 2147483647.

(** The value an out-of-range result takes on the two's complement
    machines the exercises run on. *)
Definition wrap (z : Z) : Z := (z + 2147483648) mod 4294967296 - 2147483648.

Definition in_range (z : Z) : Prop := INT_MIN <= z <= INT_MAX.

Definition add (a b : Z) : Z := wrap (a + b).
Definition sub (a b : Z) : Z := wrap (a - b).
Definition mul (a b : Z) : Z := wrap (a * b).

(** [std::to_string(int)] and [ostream << int]: the decimal numeral. *)
Definition to_string (z : Z) : string := NilZero.string_of_int (Z.to_int z).

End Int32.

(** ** Programming-Fundamentals/15- LeetCode-Problems/12-CheckDivBySumndProduct.cpp *)

Module CheckDivBySumAndProduct.
Import Int32.

(** The [while (temp != 0)] loop.  [/] and [%] on [int] truncate towards
    zero, hence [Z.quot] and [Z.rem].  The loop state is
    [(temp, digitSum, digitProduct)]; the loop returns the last two. *)
Fixpoint digit_loop (fuel : nat) (temp digitSum digitProduct : Z) : outcome (Z * Z) :=
  if temp =? 0 then Done (digitSum, digitProduct)
  else
    match fuel with
    | O => OutOfFuel
    | S fuel' =>
        let remain := Z.rem temp 10 in
        digit_loop fuel' (Z.quot temp 10) (add digitSum remain) (mul digitProduct remain)
    end.

(** Every iteration divides [temp] by ten, so one more iteration than
    [temp] has binary digits is always enough. *)
Definition loop_fuel (n : Z) : nat := S (Z.to_nat (Z.log2 (Z.abs n))).

(** The divisor [res] of the final test. *)
Definition res_of (n : Z) : outcome Z :=
  match digit_loop (loop_fuel n) n 0 1 with
  | Done (digitSum, digitProduct) => Done (add digitSum digitProduct)
  | Undefined => Undefined
  | OutOfFuel => OutOfFuel
  end.

(** [n % res] has no defined value when [res] is zero, nor for
    [INT_MIN % -1]. *)
Definition checkDivisibility (n : Z) : outcome bool :=
  match res_of n with
  | Done res =>
      if res =? 0 then Undefined
      else if (n =? INT_MIN) && (res =? -1) then Undefined
      else if negb (Z.rem n res =? 0) then Done false
      else Done true
  | Undefined => Undefined
  | OutOfFuel => OutOfFuel
  end.

(** The words of the problem statement at the head of the file: the
    decimal digits of a non-negative [n], least significant first, their
    sum and their product. *)
Fixpoint digits_le (fuel : nat) (n : Z) : list Z :=
  match fuel with
  | O => []
  | S fuel' => if n <=? 0 then [] else (n mod 10) :: digits_le fuel' (n / 10)
  end.

Definition digits (n : Z) : list Z := digits_le (loop_fuel n) n.
Definition digit_sum (n : Z) : Z := foldr Z.add 0 (digits n).
Definition digit_product (n : Z) : Z := foldr Z.mul 1 (digits n).

(** "n is divisible by either the sum or the product of its digits". *)
Definition divisible_by_sum_or_product (n : Z) : Prop :=
  (digit_sum n | n) \/ (digit_product n | n).

End CheckDivBySumAndProduct.

(** ** Programming-Fundamentals/15- LeetCode-Problems/11-Merge-SortedARR.cpp *)

Module MergeSortedArr.
Import Int32.

(** [v[i]] for a [vector<int>] and an [int] index. *)
Definition read (v : list Z) (i : Z) : option Z :=
  if 0 <=? i then v !! Z.to_nat i else None.

(** [v[i] = x]. *)
Definition write (v : list Z) (i : Z) (x : Z) : option (list Z) :=
  if (0 <=? i) && (i <? Z.of_nat (length v))
  then Some (<[Z.to_nat i := x]> v) else None.

(** The test [i >= 0 && nums1[i] > nums2[j]]; [&&] reads the vectors only
    when [i >= 0]. *)
Definition take_from_nums1 (nums1 nums2 : list Z) (i j : Z) : option bool :=
  if i >=? 0 then
    match read nums1 i, read nums2 j with
    | Some x, Some y => Some (x >? y)
    | _, _ => None
    end
  else Some false.

(** The [while (j >= 0)] loop over the state [(nums1, i, j, endSize)]. *)
Fixpoint merge_loop (fuel : nat) (nums1 nums2 : list Z) (i j endSize : Z) : outcome (list Z) :=
  if j >=? 0 then
    match fuel with
    | O => OutOfFuel
    | S fuel' =>
        match take_from_nums1 nums1 nums2 i j with
        | None => Undefined
        | Some true =>
            match read nums1 i with
            | None => Undefined
            | Some x =>
                match write nums1 endSize x with
                | None => Undefined
                | Some nums1' =>
                    merge_loop fuel' nums1' nums2 (sub i 1) j (sub endSize 1)
                end
            end
        | Some false =>
            match read nums2 j with
            | None => Undefined
            | Some y =>
                match write nums1 endSize y with
                | None => Undefined
                | Some nums1' =>
                    merge_loop fuel' nums1' nums2 i (sub j 1) (sub endSize 1)
                end
            end
        end
    end
  else Done nums1.

(** [nums1] and [nums2] are two vectors, not one passed twice.  Every
    iteration writes one cell of [nums1], at an index one below the one
    before, so the loop runs at most once per cell, and once more to find
    its end or an index outside [nums1]. *)
Definition merge (nums1 : list Z) (m : Z) (nums2 : list Z) (n : Z) : outcome (list Z) :=
  let i := sub m 1 in
  let j := sub n 1 in
  let endSize := sub (add m n) 1 in
  merge_loop (S (length nums1)) nums1 nums2 i j endSize.


End MergeSortedArr.

(** ** Programming-Fundamentals/15- LeetCode-Problems/10-IsSubsequence.cpp *)

Module IsSubsequence.
Import Int32.

(** A [std::string] is its sequence of characters. *)
Definition cpp_string : Type := list ascii.

(** The conversion of an [int] to [size_t] (64 bits, unsigned) that
    [i < s.length()], [i == s.length()] and [s[i]] perform. *)
Definition size_t_of_int (i : Z) : Z := i mod 18446744073709551616.

Definition str_length (s : cpp_string) : Z := Z.of_nat (length s).

(** [s[i]] *)
Definition str_at (s : cpp_string) (i : Z) : option ascii :=
  s !! Z.to_nat (size_t_of_int i).

(** The [while (i < s.length() && j < t.length())] loop over the state
    [(i, j)]; it returns the final [i]. *)
Fixpoint scan (fuel : nat) (s t : cpp_string) (i j : Z) : outcome Z :=
  if (size_t_of_int i <? str_length s) && (size_t_of_int j <? str_length t) then
    match fuel with
    | O => OutOfFuel
    | S fuel' =>
        match str_at s i, str_at t j with
        | Some a, Some b =>
            let i' := if Ascii.eqb a b then add i 1 else i in
            scan fuel' s t i' (add j 1)
        | _, _ => Undefined
        end
    end
  else Done i.

(** Every iteration increments [j], and the loop stops when [j] reaches
    the length of [t]. *)
Definition isSubsequence (s t : cpp_string) : outcome bool :=
  match scan (length t) s t 0 0 with
  | Done i => Done (size_t_of_int i =? str_length s)
  | Undefined => Undefined
  | OutOfFuel => OutOfFuel
  end.

(** "s can be formed from t by deleting some (possibly none) of t's
    characters without disturbing the relative positions of the remaining
    characters": each character of [t] is either kept or deleted. *)
Inductive subsequence : cpp_string -> cpp_string -> Prop :=
| subsequence_nil : subsequence [] []
| subsequence_keep c s t : subsequence s t -> subsequence (c :: s) (c :: t)
| subsequence_delete c s t : subsequence s t -> subsequence s (c :: t).

(** A text longer than an [int] can count: 2^31 times the letter a, then
    one b; and the one-letter string b. *)
Definition long_text : cpp_string :=
  replicate (Z.to_nat 2147483648) "a"%char ++ ["b"%char].

Definition one_b : cpp_string := ["b"%char].

End IsSubsequence.

(** ** Programming-Fundamentals/15- LeetCode-Problems/09-Symmetric-Tree.cpp *)

Module SymmetricTree.

(** A [TreeNode*]: either [nullptr] or the address of a node with its
    value and its two children. *)
Inductive TreeNode : Type :=
| nullptr
| node (val : Z) (left right : TreeNode).

Fixpoint isMirror (leftRoot rightRoot : TreeNode) : bool :=
  match leftRoot, rightRoot with
  | nullptr, nullptr => true
  | nullptr, node _ _ _ => false
  | node _ _ _, nullptr => false
  | node lval lleft lright, node rval rleft rright =>
      (lval =? rval) && isMirror lleft rright && isMirror lright rleft
  end.

Definition isSymmetric (root : TreeNode) : bool :=
  match root with
  | nullptr => false
  | node _ root_left root_right => isMirror root_left root_right
  end.

(** The mirror image of a tree: left and right exchanged at every node. *)
Fixpoint mirror (t : TreeNode) : TreeNode :=
  match t with
  | nullptr => nullptr
  | node val l r => node val (mirror r) (mirror l)
  end.

(** "A mirror of itself (i.e., symmetric around its center)". *)
Definition symmetric (t : TreeNode) : Prop := mirror t = t.

End SymmetricTree.

(** ** Console output

  [cout] is the sequence of characters written so far; a function that
  prints is a function from the output before to its result and the
  output after. *)

Module Console.
Import Int32.

Definition ostream : Type := string.

Definition io (A : Type) : Type := ostream -> A * ostream.

Definition ret {A} (a : A) : io A := fun os => (a, os).

Definition bind {A B} (m : io A) (k : A -> io B) : io B :=
  fun os => let '(a, os') := m os in k a os'.

(** [os << s] for a string literal and [os << z] for an [int]. *)
Definition put_string (s : string) : io unit := fun os => (tt, (os ++ s)%string).
Definition put_int (z : Z) : io unit := fun os => (tt, (os ++ to_string z)%string).

(** What a program has printed when it starts with an empty console. *)
Definition output {A} (program : io A) : string := snd (program EmptyString).

Declare Scope io_scope.
Delimit Scope io_scope with io.
Notation "x <- m ;; k" := (bind m (fun x => k))
  (at level 100, m at next level, right associativity) : io_scope.
Notation "m ;; k" := (bind m (fun _ => k))
  (at level 100, right associativity) : io_scope.

End Console.

(** ** Object-Oriented-Programming/-10 Questions/02-Bank-Management.cpp,
     dry run problem 1: construction and destruction through a [Base*] *)

Module LifecycleDryRun.
Import Int32 Console.
Local Open Scope io_scope.

Record Base : Type := { x : Z }.

(** A [Derived] object holds its [Base] subobject and its own member. *)
Record Derived : Type := { Derived_Base : Base; y : Z }.

(** [Base(int val) : x(val) { cout << "Base(" << x << ")"; }] *)
Definition Base_ctor (val : Z) : io Base :=
  let this := {| x := val |} in
  put_string "Base(" ;; put_int (x this) ;; put_string ")" ;; ret this.

(** [virtual ~Base() { cout << "~Base(" << x << ")"; }] *)
Definition Base_dtor (this : Base) : io unit :=
  put_string "~Base(" ;; put_int (x this) ;; put_string ")".

(** [Derived(int val1, int val2) : Base(val1), y(val2) { ... }]: the base
    class is initialised first, then the member, then the body runs. *)
Definition Derived_ctor (val1 val2 : Z) : io Derived :=
  base <- Base_ctor val1 ;;
  let this := {| Derived_Base := base; y := val2 |} in
  put_string "Derived(" ;; put_int (y this) ;; put_string ")" ;; ret this.

(** [~Derived() { ... }]: the body runs, then the destructor of the base
    class. *)
Definition Derived_dtor (this : Derived) : io unit :=
  put_string "~Derived(" ;; put_int (y this) ;; put_string ")" ;;
  Base_dtor (Derived_Base this).

(** The object a [Base*] points to, with its dynamic type. *)
Inductive Base_ptr : Type :=
| to_Base (b : Base)
| to_Derived (d : Derived).

(** [new Derived(val1, val2)], converted to [Base*]. *)
Definition new_Derived (val1 val2 : Z) : io Base_ptr :=
  d <- Derived_ctor val1 val2 ;; ret (to_Derived d).

(** [delete ptr]: the destructor of [Base] is virtual, so the destructor
    of the dynamic type is the one called. *)
Definition delete (ptr : Base_ptr) : io unit :=
  match ptr with
  | to_Base b => Base_dtor b
  | to_Derived d => Derived_dtor d
  end.

Definition main : io Z :=
  ptr <- new_Derived 10 20 ;;
  delete ptr ;;
  ret 0.

End LifecycleDryRun.

(** ** The same file, dry run problem 3: [operator+] on [Bank] *)

Module OperatorDryRun.
Import Int32 Console.
Local Open Scope io_scope.

Record Bank : Type := { balance : Z }.

(** [Bank operator+(const Bank& other)] *)
Definition Bank_plus (this other : Bank) : Bank :=
  {| balance := add (add (balance this) (balance other)) 100 |}.

(** [friend ostream& operator<<(ostream& os, const Bank& bank)] *)
Definition put_Bank (bank : Bank) : io unit :=
  put_string "Bank($" ;; put_int (balance bank) ;; put_string ")".

Definition main : io Z :=
  let b1 := {| balance := 1000 |} in
  let b2 := {| balance := 2000 |} in
  put_Bank (Bank_plus b1 b2) ;;
  ret 0.

End OperatorDryRun.

(** ** The same file: [Transaction] and [Account] *)

Module BankManagement.
Import Int32.

Inductive exception : Type :=
| BankException (message : string)
| TransactionException (message : string).

(** How a member function ends. *)
Inductive completion : Type :=
| Normal
| Throw (e : exception).

(** A [double] is an IEEE 754 binary64 number. *)
Record Transaction : Type := {
  transactionId : string;
  amount : float;
  type : string;
  date : string;
  description : string
}.

(** [date.pop_back()] *)
Definition pop_back (s : string) : string :=
  string_of_list_ascii (removelast (list_ascii_of_string s)).

(** [Transaction(double amt, string t, string desc)].  The static member
    [transactionCounter] is passed in and out; [ctime_now] is the text
    that [ctime(&now)] yields at the call. *)
Definition Transaction_ctor (ctime_now : string) (transactionCounter : Z)
    (amt : float) (t desc : string) : Transaction * Z :=
  let transactionCounter := add transactionCounter 1 in
  ({| transactionId := ("TXN" ++ to_string transactionCounter)%string;
      amount := amt;
      type := t;
      date := pop_back ctime_now;
      description := desc |},
   transactionCounter).

Record Account : Type := {
  accountNumber : string;
  balance : float;
  accountType : string;
  customerId : string;
  transactions : list Transaction
}.

Definition set_balance (this : Account) (b : float) : Account :=
  {| accountNumber := accountNumber this;
     balance := b;
     accountType := accountType this;
     customerId := customerId this;
     transactions := transactions this |}.

(** [transactions.emplace_back(amount, type, description)] *)
Definition addTransaction (ctime_now : string) (transactionCounter : Z)
    (this : Account) (amount : float) (type description : string) : Account * Z :=
  let '(txn, transactionCounter) :=
    Transaction_ctor ctime_now transactionCounter amount type description in
  ({| accountNumber := accountNumber this;
      balance := balance this;
      accountType := accountType this;
      customerId := customerId this;
      transactions := transactions this ++ [txn] |},
   transactionCounter).

(** [Account::withdraw]: the state after the call (the static counter and
    the object) and how the call ended. *)
Definition withdraw (ctime_now : string) (transactionCounter : Z)
    (this : Account) (amount : float) : Z * Account * completion :=
  if PrimFloat.leb amount 0%float then
    (transactionCounter, this,
     Throw (BankException "Withdrawal amount must be positive"))
  else if PrimFloat.ltb (balance this) amount then
    (transactionCounter, this, Throw (BankException "Insufficient funds"))
  else
    let this := set_balance this (PrimFloat.sub (balance this) amount) in
    let '(this, transactionCounter) :=
      addTransaction ctime_now transactionCounter this amount
        "WITHDRAW" "Cash withdrawal" in
    (transactionCounter, this, Normal).

Definition throws_BankException (c : completion) : Prop :=
  exists message, c = Throw (BankException message).

(** A sample account, for the examples. *)
Definition account_1000 : Account :=
  {| accountNumber := "ACC1"; balance := 1000%float; accountType := "Savings";
     customerId := "C1"; transactions := [] |}.

End BankManagement.

(** ** Object-Oriented-Programming/-10 Questions/05-Daily-Event-Recurring.cpp *)

Module DailyEventRecurring.
Import Int32.

Inductive exception : Type :=
| EventException (message : string)
| SchedulerException (message : string).

(** How a member function ends. *)
Inductive completion : Type :=
| Normal
| Throw (e : exception).

Record DateTime : Type := {
  year : Z;
  month : Z;
  day : Z;
  hour : Z;
  minute : Z
}.

(** [DateTime::validate] *)
Definition validate (this : DateTime) : completion :=
  if (year this <? 1900) || (year this >? 2100) then Throw (EventException "Invalid year")
  else if (month this <? 1) || (month this >? 12) then Throw (EventException "Invalid month")
  else if (day this <? 1) || (day this >? 31) then Throw (EventException "Invalid day")
  else if (hour this <? 0) || (hour this >? 23) then Throw (EventException "Invalid hour")
  else if (minute this <? 0) || (minute this >? 59) then Throw (EventException "Invalid minute")
  else Normal.

(** [DateTime::operator<] *)
Definition DateTime_lt (this other : DateTime) : bool :=
  if negb (year this =? year other) then year this <? year other
  else if negb (month this =? month other) then month this <? month other
  else if negb (day this =? day other) then day this <? day other
  else if negb (hour this =? hour other) then hour this <? hour other
  else minute this <? minute other.

(** [DateTime::operator>=] *)
Definition DateTime_ge (this other : DateTime) : bool :=
  negb (DateTime_lt this other).

Record Event : Type := {
  eventId : Z;
  title : string;
  description : string;
  startTime : DateTime;
  endTime : DateTime;
  priority : Z
}.

(** [Event(string t, string desc, DateTime start, DateTime end, int p)].
    The static member [eventCounter] is passed in and out; the call
    yields the new object or the exception thrown. *)
Definition Event_ctor (eventCounter : Z) (t desc : string)
    (start end_ : DateTime) (p : Z) : Z * (Event + exception) :=
  let eventCounter := add eventCounter 1 in
  let this :=
    {| eventId := eventCounter; title := t; description := desc;
       startTime := start; endTime := end_; priority := p |} in
  if (priority this <? 1) || (priority this >? 10) then
    (eventCounter, inr (EventException "Priority must be between 1 and 10"))
  else if DateTime_ge (startTime this) (endTime this) then
    (eventCounter, inr (EventException "Start time must be before end time"))
  else (eventCounter, inl this).

(** The setters: the object after the call and how the call ended. *)
Definition setTitle (this : Event) (t : string) : Event * completion :=
  ({| eventId := eventId this; title := t; description := description this;
      startTime := startTime this; endTime := endTime this;
      priority := priority this |}, Normal).

Definition setDescription (this : Event) (desc : string) : Event * completion :=
  ({| eventId := eventId this; title := title this; description := desc;
      startTime := startTime this; endTime := endTime this;
      priority := priority this |}, Normal).

Definition setStartTime (this : Event) (start : DateTime) : Event * completion :=
  if DateTime_ge start (endTime this) then
    (this, Throw (EventException "Start time must be before end time"))
  else
    ({| eventId := eventId this; title := title this; description := description this;
        startTime := start; endTime := endTime this;
        priority := priority this |}, Normal).

Definition setEndTime (this : Event) (end_ : DateTime) : Event * completion :=
  if DateTime_ge (startTime this) end_ then
    (this, Throw (EventException "End time must be after start time"))
  else
    ({| eventId := eventId this; title := title this; description := description this;
        startTime := startTime this; endTime := end_;
        priority := priority this |}, Normal).

Definition setPriority (this : Event) (p : Z) : Event * completion :=
  if (p <? 1) || (p >? 10) then
    (this, Throw (EventException "Priority must be between 1 and 10"))
  else
    ({| eventId := eventId this; title := title this; description := description this;
        startTime := startTime this; endTime := endTime this;
        priority := p |}, Normal).

Definition throws_EventException (c : completion) : Prop :=
  exists message, c = Throw (EventException message).

(** The invariant: [startTime < endTime]. *)
Definition start_before_end (e : Event) : Prop :=
  DateTime_lt (startTime e) (endTime e) = true.

(** The [Event] objects a program can hold: those the constructor
    returned, after any sequence of calls of the setters. *)
Inductive Event_object : Event -> Prop :=
| constructed eventCounter t desc start end_ p eventCounter' e :
    Event_ctor eventCounter t desc start end_ p = (eventCounter', inl e) ->
    Event_object e
| after_setTitle e t : Event_object e -> Event_object (fst (setTitle e t))
| after_setDescription e desc :
    Event_object e -> Event_object (fst (setDescription e desc))
| after_setStartTime e start :
    Event_object e -> Event_object (fst (setStartTime e start))
| after_setEndTime e end_ :
    Event_object e -> Event_object (fst (setEndTime e end_))
| after_setPriority e p : Event_object e -> Event_object (fst (setPriority e p)).

(** Sample values, for the examples. *)
Definition nine_oclock : DateTime :=
  {| year := 2024; month := 1; day := 15; hour := 9; minute := 0 |}.
Definition ten_oclock : DateTime :=
  {| year := 2024; month := 1; day := 15; hour := 10; minute := 0 |}.
Definition meeting : Event :=
  {| eventId := 1; title := "Meeting"; description := "Weekly";
     startTime := nine_oclock; endTime := ten_oclock; priority := 5 |}.

End DailyEventRecurring.

(** ** The same file: the rest of [DateTime] *)

Module DateTimeOps.
Import Int32 DailyEventRecurring.

Definition set_year (this : DateTime) (y : Z) : DateTime :=
  {| year := y; month := month this; day := day this;
     hour := hour this; minute := minute this |}.
Definition set_month (this : DateTime) (m : Z) : DateTime :=
  {| year := year this; month := m; day := day this;
     hour := hour this; minute := minute this |}.
Definition set_day (this : DateTime) (d : Z) : DateTime :=
  {| year := year this; month := month this; day := d;
     hour := hour this; minute := minute this |}.
Definition set_hour (this : DateTime) (h : Z) : DateTime :=
  {| year := year this; month := month this; day := day this;
     hour := h; minute := minute this |}.
Definition set_minute (this : DateTime) (m : Z) : DateTime :=
  {| year := year this; month := month this; day := day this;
     hour := hour this; minute := m |}.

(** [DateTime(int y, int m, int d, int h, int min)]: the members are set,
    then [validate()] runs; the result is the object or the exception. *)
Definition DateTime_ctor (y m d h min : Z) : DateTime + exception :=
  let this := {| year := y; month := m; day := d; hour := h; minute := min |} in
  match validate this with
  | Normal => inl this
  | Throw e => inr e
  end.

(** The setters assign first and validate afterwards: the object after the
    call and how the call ended. *)
Definition setYear (this : DateTime) (y : Z) : DateTime * completion :=
  let this := set_year this y in (this, validate this).
Definition setMonth (this : DateTime) (m : Z) : DateTime * completion :=
  let this := set_month this m in (this, validate this).
Definition setDay (this : DateTime) (d : Z) : DateTime * completion :=
  let this := set_day this d in (this, validate this).
Definition setHour (this : DateTime) (h : Z) : DateTime * completion :=
  let this := set_hour this h in (this, validate this).
Definition setMinute (this : DateTime) (m : Z) : DateTime * completion :=
  let this := set_minute this m in (this, validate this).

(** [operator==], [operator!=], [operator>] and [operator<=]. *)
Definition DateTime_eq (this other : DateTime) : bool :=
  (year this =? year other) && (month this =? month other) &&
  (day this =? day other) && (hour this =? hour other) &&
  (minute this =? minute other).
Definition DateTime_ne (this other : DateTime) : bool := negb (DateTime_eq this other).
Definition DateTime_gt (this other : DateTime) : bool := DateTime_lt other this.
Definition DateTime_le (this other : DateTime) : bool := negb (DateTime_lt other this).

(** The [while (result.day > 31)] loop of [addDays]. *)
Fixpoint addDays_loop (fuel : nat) (result : DateTime) : outcome DateTime :=
  if day result >? 31 then
    match fuel with
    | O => OutOfFuel
    | S fuel' =>
        let result := set_day result (sub (day result) 31) in
        let result := set_month result (add (month result) 1) in
        let result :=
          if month result >? 12
          then set_year (set_month result 1) (add (year result) 1)
          else result in
        addDays_loop fuel' result
    end
  else Done result.

(** [DateTime addDays(int days) const].  Every iteration takes 31 off a
    [day] above 31, so [day / 31] iterations are enough. *)
Definition addDays (this : DateTime) (days : Z) : outcome DateTime :=
  let result := set_day this (add (day this) days) in
  addDays_loop (Z.to_nat (day result / 31)) result.

(** The [while (result.hour >= 24)] loop of [addHours]. *)
Fixpoint addHours_loop (fuel : nat) (result : DateTime) : outcome DateTime :=
  if hour result >=? 24 then
    match fuel with
    | O => OutOfFuel
    | S fuel' =>
        let result := set_hour result (sub (hour result) 24) in
        match addDays result 1 with
        | Done result => addHours_loop fuel' result
        | Undefined => Undefined
        | OutOfFuel => OutOfFuel
        end
    end
  else Done result.

(** [DateTime addHours(int hours) const] *)
Definition addHours (this : DateTime) (hours : Z) : outcome DateTime :=
  let result := set_hour this (add (hour this) hours) in
  addHours_loop (Z.to_nat (hour result / 24)) result.

(** The [while (result.minute >= 60)] loop of [addMinutes]. *)
Fixpoint addMinutes_loop (fuel : nat) (result : DateTime) : outcome DateTime :=
  if minute result >=? 60 then
    match fuel with
    | O => OutOfFuel
    | S fuel' =>
        let result := set_minute result (sub (minute result) 60) in
        match addHours result 1 with
        | Done result => addMinutes_loop fuel' result
        | Undefined => Undefined
        | OutOfFuel => OutOfFuel
        end
    end
  else Done result.

(** [DateTime addMinutes(int minutes) const] *)
Definition addMinutes (this : DateTime) (minutes : Z) : outcome DateTime :=
  let result := set_minute this (add (minute this) minutes) in
  addMinutes_loop (Z.to_nat (minute result / 60)) result.

(** [int getDayOfWeek() const] *)
Definition getDayOfWeek (this : DateTime) : Z :=
  let days :=
    add (add (day this) (mul (sub (month this) 1) 31))
        (mul (sub (year this) 1900) 365) in
  Z.rem days 7.

(** The calendar the class computes with has twelve months of 31 days:
    the number of a day and of a minute in it. *)
Definition day_number (d : DateTime) : Z :=
  (year d * 12 + (month d - 1)) * 31 + day d.
Definition hour_number (d : DateTime) : Z := day_number d * 24 + hour d.
Definition minute_number (d : DateTime) : Z := hour_number d * 60 + minute d.

(** A date that [validate] accepts. *)
Definition valid (d : DateTime) : Prop := validate d = Normal.

End DateTimeOps.

(** ** The same file: the recurring events *)

Module RecurringEvents.
Import Int32 DailyEventRecurring DateTimeOps.

(** [virtual ~Event() { eventCounter--; }] *)
Definition Event_dtor (eventCounter : Z) : Z := sub eventCounter 1.

(** The derived classes: the [Event] subobject and the members added. *)
Record DailyEvent : Type := {
  Daily_Event : Event;
  recurrencePattern : Z;
  lastOccurrence : DateTime;
  nextOccurrence : DateTime
}.

Record WeeklyEvent : Type := {
  Weekly_Event : Event;
  dayOfWeek : Z;
  weekInterval : Z
}.

Record MonthlyEvent : Type := {
  Monthly_Event : Event;
  dayOfMonth : Z;
  monthInterval : Z
}.

Record YearlyEvent : Type := {
  Yearly_Event : Event;
  Yearly_month : Z;
  Yearly_day : Z;
  yearInterval : Z
}.

(** [WeeklyEvent(t, desc, start, end, day, interval, p)]: the [Event] is
    constructed first; when the body throws, the [Event] already there is
    destroyed again. *)
Definition WeeklyEvent_ctor (eventCounter : Z) (t desc : string)
    (start end_ : DateTime) (day interval p : Z) : Z * (WeeklyEvent + exception) :=
  match Event_ctor eventCounter t desc start end_ p with
  | (eventCounter, inr e) => (eventCounter, inr e)
  | (eventCounter, inl base) =>
      let this :=
        {| Weekly_Event := base; dayOfWeek := day; weekInterval := interval |} in
      if (day <? 0) || (day >? 6) then
        (Event_dtor eventCounter,
         inr (EventException "Day of week must be between 0 and 6"))
      else if interval <? 1 then
        (Event_dtor eventCounter,
         inr (EventException "Week interval must be at least 1"))
      else (eventCounter, inl this)
  end.

(** [DailyEvent::updateNextOccurrence] *)
Definition updateNextOccurrence (this : DailyEvent) : outcome DailyEvent :=
  let lastOccurrence := nextOccurrence this in
  match addDays (nextOccurrence this) (recurrencePattern this) with
  | Done next =>
      Done {| Daily_Event := Daily_Event this;
              recurrencePattern := recurrencePattern this;
              lastOccurrence := lastOccurrence;
              nextOccurrence := next |}
  | Undefined => Undefined
  | OutOfFuel => OutOfFuel
  end.

(** [WeeklyEvent::getNextOccurrence] *)
Definition WeeklyEvent_getNextOccurrence (this : WeeklyEvent) : outcome DateTime :=
  let current := startTime (Weekly_Event this) in
  let currentDay := getDayOfWeek current in
  let daysToAdd := Z.rem (add (sub (dayOfWeek this) currentDay) 7) 7 in
  let daysToAdd :=
    if daysToAdd =? 0 then mul 7 (weekInterval this)
    else add daysToAdd (mul 7 (sub (weekInterval this) 1)) in
  addDays current daysToAdd.

(** [MonthlyEvent::getNextOccurrence]: the date returned, or the exception
    that a setter of [DateTime] threw. *)
Definition MonthlyEvent_getNextOccurrence (this : MonthlyEvent) : DateTime + exception :=
  let current := startTime (Monthly_Event this) in
  let next := current in
  match setMonth next (add (month current) (monthInterval this)) with
  | (_, Throw e) => inr e
  | (next, Normal) =>
      if month next >? 12 then
        match setMonth next (sub (month next) 12) with
        | (_, Throw e) => inr e
        | (next, Normal) =>
            match setYear next (add (year next) 1) with
            | (_, Throw e) => inr e
            | (next, Normal) => inl next
            end
        end
      else inl next
  end.

(** [YearlyEvent::getNextOccurrence] *)
Definition YearlyEvent_getNextOccurrence (this : YearlyEvent) : DateTime + exception :=
  let current := startTime (Yearly_Event this) in
  let next := current in
  match setYear next (add (year current) (yearInterval this)) with
  | (_, Throw e) => inr e
  | (next, Normal) => inl next
  end.

(** Sample events, for the examples. *)
Definition daily_standup : DailyEvent :=
  {| Daily_Event := meeting; recurrencePattern := 1;
     lastOccurrence := nine_oclock; nextOccurrence := nine_oclock |}.

Definition weekly_review : WeeklyEvent :=
  {| Weekly_Event := meeting; dayOfWeek := 1; weekInterval := 1 |}.

Definition monthly_report (m : Z) (interval : Z) : MonthlyEvent :=
  {| Monthly_Event :=
       {| eventId := 1; title := "Monthly Report"; description := "";
          startTime := {| year := 2024; month := m; day := 15; hour := 16; minute := 0 |};
          endTime := {| year := 2024; month := m; day := 15; hour := 17; minute := 0 |};
          priority := 6 |};
     dayOfMonth := 15; monthInterval := interval |}.

Definition annual_review (interval : Z) : YearlyEvent :=
  {| Yearly_Event := meeting; Yearly_month := 1; Yearly_day := 15;
     yearInterval := interval |}.

End RecurringEvents.

(** ** The same file: [EventScheduler] *)

Module Scheduler.
Import Int32 DailyEventRecurring DateTimeOps RecurringEvents.

(** The object a [shared_ptr<Event>] points to, with its dynamic type;
    [None] stands for a null pointer where one can be returned. *)
Inductive Event_ptr : Type :=
| to_Event (e : Event)
| to_DailyEvent (e : DailyEvent)
| to_WeeklyEvent (e : WeeklyEvent)
| to_MonthlyEvent (e : MonthlyEvent)
| to_YearlyEvent (e : YearlyEvent).

(** The [Event] subobject, which the non-virtual getters read. *)
Definition Event_of (p : Event_ptr) : Event :=
  match p with
  | to_Event e => e
  | to_DailyEvent e => Daily_Event e
  | to_WeeklyEvent e => Weekly_Event e
  | to_MonthlyEvent e => Monthly_Event e
  | to_YearlyEvent e => Yearly_Event e
  end.

Record EventScheduler : Type := {
  events : list Event_ptr;
  currentDate : DateTime
}.







(** The overlap test of [checkConflicts]:
    [(start1 < end2) && (start2 < end1)]. *)
Definition overlap (e1 e2 : Event_ptr) : bool :=
  let start1 := startTime (Event_of e1) in
  let end1 := endTime (Event_of e1) in
  let start2 := startTime (Event_of e2) in
  let end2 := endTime (Event_of e2) in
  DateTime_lt start1 end2 && DateTime_lt start2 end1.

(** The body of the two loops of [checkConflicts] for one [i] and one
    [j]. *)
Definition checkConflicts_body (events : list Event_ptr) (i j : nat)
    (conflicts : list (Event_ptr * Event_ptr)) : list (Event_ptr * Event_ptr) :=
  match events !! i, events !! j with
  | Some ei, Some ej => if overlap ei ej then conflicts ++ [(ei, ej)] else conflicts
  | _, _ => conflicts
  end.

(** [for (size_t j = i + 1; j < events.size(); j++)] *)
Definition checkConflicts_inner (events : list Event_ptr) (i : nat)
    (conflicts : list (Event_ptr * Event_ptr)) : list (Event_ptr * Event_ptr) :=
  foldl (fun conflicts j => checkConflicts_body events i j conflicts)
    conflicts (seq (S i) (length events - S i)).

(** [for (size_t i = 0; i < events.size(); i++)] *)
Definition checkConflicts (this : EventScheduler) : list (Event_ptr * Event_ptr) :=
  foldl (fun conflicts i => checkConflicts_inner (events this) i conflicts)
    [] (seq 0 (length (events this))).



End Scheduler.

(** ** The same file: the account classes and [BankManagementSystem] *)

Module BankAccounts.
Import Int32 BankManagement.

(** What the program takes from outside: the text [ctime(&now)] yields
    when the transaction counted [n] is constructed, and the text
    [ostream << double] prints. *)
Record Env : Type := {
  ctime_at : Z -> string;
  show_double : float -> string
}.

(** The state outside the objects: the static member
    [Transaction::transactionCounter] and the characters written to
    [cout]. *)
Record World : Type := {
  transactionCounter : Z;
  cout : string
}.

Definition endl : string := String "010"%char EmptyString.

(** [cout << s] *)
Definition print (w : World) (s : string) : World :=
  {| transactionCounter := transactionCounter w; cout := (cout w ++ s)%string |}.

Definition set_counter (w : World) (c : Z) : World :=
  {| transactionCounter := c; cout := cout w |}.

(** [e.what()] *)
Definition what (e : exception) : string :=
  match e with
  | BankException message => message
  | TransactionException message => message
  end.

(** [Account::addTransaction] *)
Definition Account_addTransaction (env : Env) (w : World) (this : Account)
    (amount : float) (type description : string) : World * Account :=
  let '(this, c) :=
    addTransaction (ctime_at env (transactionCounter w)) (transactionCounter w)
      this amount type description in
  (set_counter w c, this).

(** [Account::deposit] *)
Definition Account_deposit (env : Env) (w : World) (this : Account)
    (amount : float) : World * Account * completion :=
  if PrimFloat.leb amount 0%float then
    (w, this, Throw (BankException "Deposit amount must be positive"))
  else
    let this := set_balance this (PrimFloat.add (balance this) amount) in
    let '(w, this) :=
      Account_addTransaction env w this amount "DEPOSIT" "Cash deposit" in
    (w, this, Normal).

(** [Account::withdraw] *)
Definition Account_withdraw (env : Env) (w : World) (this : Account)
    (amount : float) : World * Account * completion :=
  let '(c, this, r) :=
    withdraw (ctime_at env (transactionCounter w)) (transactionCounter w)
      this amount in
  (set_counter w c, this, r).

Record SavingsAccount : Type := {
  Savings_Account : Account;
  interestRate : float;
  minimumBalance : float
}.

Definition Savings_with (this : SavingsAccount) (base : Account) : SavingsAccount :=
  {| Savings_Account := base; interestRate := interestRate this;
     minimumBalance := minimumBalance this |}.

(** [SavingsAccount::deposit] *)
Definition Savings_deposit (env : Env) (w : World) (this : SavingsAccount)
    (amount : float) : World * SavingsAccount * completion :=
  match Account_deposit env w (Savings_Account this) amount with
  | (w, base, Throw e) => (w, Savings_with this base, Throw e)
  | (w, base, Normal) =>
      (print w ("Deposited $" ++ show_double env amount ++
                " to savings account" ++ endl),
       Savings_with this base, Normal)
  end.

(** [SavingsAccount::withdraw] *)
Definition Savings_withdraw (env : Env) (w : World) (this : SavingsAccount)
    (amount : float) : World * SavingsAccount * completion :=
  if PrimFloat.ltb (PrimFloat.sub (balance (Savings_Account this)) amount)
       (minimumBalance this) then
    (w, this,
     Throw (BankException "Withdrawal would violate minimum balance requirement"))
  else
    match Account_withdraw env w (Savings_Account this) amount with
    | (w, base, Throw e) => (w, Savings_with this base, Throw e)
    | (w, base, Normal) =>
        (print w ("Withdrew $" ++ show_double env amount ++
                  " from savings account" ++ endl),
         Savings_with this base, Normal)
    end.

Record CheckingAccount : Type := {
  Checking_Account : Account;
  overdraftLimit : float;
  transactionFee : float
}.

Definition Checking_with (this : CheckingAccount) (base : Account) : CheckingAccount :=
  {| Checking_Account := base; overdraftLimit := overdraftLimit this;
     transactionFee := transactionFee this |}.

(** [CheckingAccount::withdraw] *)
Definition Checking_withdraw (env : Env) (w : World) (this : CheckingAccount)
    (amount : float) : World * CheckingAccount * completion :=
  if PrimFloat.leb amount 0%float then
    (w, this, Throw (BankException "Withdrawal amount must be positive"))
  else
    let totalAmount := PrimFloat.add amount (transactionFee this) in
    if PrimFloat.ltb
         (PrimFloat.add (balance (Checking_Account this)) (overdraftLimit this))
         totalAmount then
      (w, this, Throw (BankException "Withdrawal exceeds overdraft limit"))
    else
      let base := Checking_Account this in
      let base := set_balance base (PrimFloat.sub (balance base) totalAmount) in
      let '(w, base) :=
        Account_addTransaction env w base amount "WITHDRAW" "Cash withdrawal" in
      let '(w, base) :=
        Account_addTransaction env w base (transactionFee this)
          "FEE" "Transaction fee" in
      (print w ("Withdrew $" ++ show_double env amount ++ " (Fee: $" ++
                show_double env (transactionFee this) ++
                ") from checking account" ++ endl),
       Checking_with this base, Normal).

Record FixedDepositAccount : Type := {
  Fixed_Account : Account;
  depositAmount : float;
  maturityDate : string;
  Fixed_interestRate : float;
  isMatured : bool
}.

Definition Fixed_with (this : FixedDepositAccount) (base : Account) : FixedDepositAccount :=
  {| Fixed_Account := base; depositAmount := depositAmount this;
     maturityDate := maturityDate this;
     Fixed_interestRate := Fixed_interestRate this; isMatured := isMatured this |}.

(** [FixedDepositAccount::deposit] *)
Definition Fixed_deposit (env : Env) (w : World) (this : FixedDepositAccount)
    (amount : float) : World * FixedDepositAccount * completion :=
  (w, this,
   Throw (BankException "Additional deposits not allowed in fixed deposit account")).

(** [FixedDepositAccount::withdraw] *)
Definition Fixed_withdraw (env : Env) (w : World) (this : FixedDepositAccount)
    (amount : float) : World * FixedDepositAccount * completion :=
  if negb (isMatured this) then
    (w, this, Throw (BankException "Cannot withdraw before maturity date"))
  else if PrimFloat.ltb (balance (Fixed_Account this)) amount then
    (w, this, Throw (BankException "Insufficient funds"))
  else
    match Account_withdraw env w (Fixed_Account this) amount with
    | (w, base, Throw e) => (w, Fixed_with this base, Throw e)
    | (w, base, Normal) =>
        (print w ("Withdrew $" ++ show_double env amount ++
                  " from fixed deposit account" ++ endl),
         Fixed_with this base, Normal)
    end.

(** [FixedDepositAccount::calculateInterest] *)
Definition Fixed_calculateInterest (env : Env) (w : World)
    (this : FixedDepositAccount) : World * FixedDepositAccount :=
  if negb (isMatured this) then
    let interest := PrimFloat.mul (depositAmount this) (Fixed_interestRate this) in
    let base := Fixed_Account this in
    let base := set_balance base (PrimFloat.add (balance base) interest) in
    let '(w, base) :=
      Account_addTransaction env w base interest
        "INTEREST" "Fixed deposit interest" in
    (print w ("Interest of $" ++ show_double env interest ++
              " credited to fixed deposit account" ++ endl),
     Fixed_with this base)
  else (w, this).

(** [FixedDepositAccount::matureAccount] *)
Definition matureAccount (env : Env) (w : World) (this : FixedDepositAccount)
    : World * FixedDepositAccount :=
  let this :=
    {| Fixed_Account := Fixed_Account this; depositAmount := depositAmount this;
       maturityDate := maturityDate this;
       Fixed_interestRate := Fixed_interestRate this; isMatured := true |} in
  let '(w, this) := Fixed_calculateInterest env w this in
  (print w ("Fixed deposit account matured on " ++ maturityDate this ++ endl), this).

(** The object a [shared_ptr<Account>] points to, with its dynamic type. *)
Inductive Account_ptr : Type :=
| to_Account (a : Account)
| to_Savings (a : SavingsAccount)
| to_Checking (a : CheckingAccount)
| to_Fixed (a : FixedDepositAccount).

(** The [Account] subobject, which [getAccountNumber] and [getBalance]
    read. *)
Definition Account_of (p : Account_ptr) : Account :=
  match p with
  | to_Account a => a
  | to_Savings a => Savings_Account a
  | to_Checking a => Checking_Account a
  | to_Fixed a => Fixed_Account a
  end.

(** [account->deposit(amount)]: the virtual call. *)
Definition virtual_deposit (env : Env) (w : World) (p : Account_ptr)
    (amount : float) : World * Account_ptr * completion :=
  match p with
  | to_Account a =>
      let '(w, a, r) := Account_deposit env w a amount in (w, to_Account a, r)
  | to_Savings a =>
      let '(w, a, r) := Savings_deposit env w a amount in (w, to_Savings a, r)
  | to_Checking a =>
      let '(w, base, r) := Account_deposit env w (Checking_Account a) amount in
      (w, to_Checking (Checking_with a base), r)
  | to_Fixed a =>
      let '(w, a, r) := Fixed_deposit env w a amount in (w, to_Fixed a, r)
  end.

(** [account->withdraw(amount)]: the virtual call. *)
Definition virtual_withdraw (env : Env) (w : World) (p : Account_ptr)
    (amount : float) : World * Account_ptr * completion :=
  match p with
  | to_Account a =>
      let '(w, a, r) := Account_withdraw env w a amount in (w, to_Account a, r)
  | to_Savings a =>
      let '(w, a, r) := Savings_withdraw env w a amount in (w, to_Savings a, r)
  | to_Checking a =>
      let '(w, a, r) := Checking_withdraw env w a amount in (w, to_Checking a, r)
  | to_Fixed a =>
      let '(w, a, r) := Fixed_withdraw env w a amount in (w, to_Fixed a, r)
  end.

(** [BankManagementSystem]: the accounts that [allAccounts] points to.
    The customers hold further pointers to the same accounts; the
    functions below do not go through them. *)
Record BankManagementSystem : Type := {
  allAccounts : list Account_ptr;
  dataFile : string
}.

Definition set_allAccounts (this : BankManagementSystem)
    (accounts : list Account_ptr) : BankManagementSystem :=
  {| allAccounts := accounts; dataFile := dataFile this |}.

Definition has_number (number : string) (account : Account_ptr) : bool :=
  String.eqb (accountNumber (Account_of account)) number.

(** The [try] block of [BankManagementSystem::deposit]: the first account
    with the number receives the deposit. *)
Fixpoint deposit_loop (env : Env) (w : World) (accounts : list Account_ptr)
    (number : string) (amount : float) : World * list Account_ptr * completion :=
  match accounts with
  | [] => (w, [], Throw (BankException "Account not found"))
  | account :: rest =>
      if has_number number account then
        let '(w, account, r) := virtual_deposit env w account amount in
        (w, account :: rest, r)
      else
        let '(w, rest, r) := deposit_loop env w rest number amount in
        (w, account :: rest, r)
  end.

(** [void deposit(string accountNumber, double amount)]: every exception
    is caught and reported on [cout]. *)
Definition BMS_deposit (env : Env) (w : World) (this : BankManagementSystem)
    (number : string) (amount : float) : World * BankManagementSystem :=
  match deposit_loop env w (allAccounts this) number amount with
  | (w, accounts, Normal) => (w, set_allAccounts this accounts)
  | (w, accounts, Throw e) =>
      (print w ("Error depositing money: " ++ what e ++ endl),
       set_allAccounts this accounts)
  end.

(** The search loop of [transfer]: it runs over all accounts, so the last
    account with each number is the one kept; an account is named by its
    position in [allAccounts]. *)
Fixpoint transfer_scan (accounts : list Account_ptr) (fromAccount toAccount : string)
    (position : nat) (fromAcc toAcc : option nat) : option nat * option nat :=
  match accounts with
  | [] => (fromAcc, toAcc)
  | account :: rest =>
      let fromAcc := if has_number fromAccount account then Some position else fromAcc in
      let toAcc := if has_number toAccount account then Some position else toAcc in
      transfer_scan rest fromAccount toAccount (S position) fromAcc toAcc
  end.

(** The [try] block of [transfer]. *)
Definition transfer_try (env : Env) (w : World) (accounts : list Account_ptr)
    (fromAccount toAccount : string) (amount : float)
    : World * list Account_ptr * completion :=
  match transfer_scan accounts fromAccount toAccount O None None with
  | (Some i, Some j) =>
      match accounts !! i with
      | None => (w, accounts, Normal)
      | Some fromAcc =>
          let '(w, fromAcc, r) := virtual_withdraw env w fromAcc amount in
          let accounts := <[i := fromAcc]> accounts in
          match r with
          | Throw e => (w, accounts, Throw e)
          | Normal =>
              match accounts !! j with
              | None => (w, accounts, Normal)
              | Some toAcc =>
                  let '(w, toAcc, r) := virtual_deposit env w toAcc amount in
                  let accounts := <[j := toAcc]> accounts in
                  match r with
                  | Throw e => (w, accounts, Throw e)
                  | Normal =>
                      (print w ("Transfer of $" ++ show_double env amount ++
                                " completed successfully!" ++ endl),
                       accounts, Normal)
                  end
              end
          end
      end
  | _ => (w, accounts, Throw (BankException "One or both accounts not found"))
  end.

(** [void transfer(string fromAccount, string toAccount, double amount)] *)
Definition transfer (env : Env) (w : World) (this : BankManagementSystem)
    (fromAccount toAccount : string) (amount : float)
    : World * BankManagementSystem :=
  match transfer_try env w (allAccounts this) fromAccount toAccount amount with
  | (w, accounts, Normal) => (w, set_allAccounts this accounts)
  | (w, accounts, Throw e) =>
      (print w ("Error transferring money: " ++ what e ++ endl),
       set_allAccounts this accounts)
  end.

(** Samples, for the examples. *)
Definition sample_env : Env :=
  {| ctime_at := fun _ => "Thu Jan  1 00:00:00 1970"%string;
     show_double := fun _ => "100"%string |}.

Definition start_of_day : World := {| transactionCounter := 0; cout := EmptyString |}.

Definition savings_500 : SavingsAccount :=
  {| Savings_Account :=
       {| accountNumber := "ACC2"; balance := 500%float; accountType := "Savings";
          customerId := "C1"; transactions := [] |};
     interestRate := 0.5%float; minimumBalance := 100%float |}.

Definition fixed_5000 : FixedDepositAccount :=
  {| Fixed_Account :=
       {| accountNumber := "ACC3"; balance := 5000%float;
          accountType := "Fixed Deposit"; customerId := "C1"; transactions := [] |};
     depositAmount := 5000%float; maturityDate := "2024-12-31";
     Fixed_interestRate := 0.125%float; isMatured := false |}.

Definition sample_bank : BankManagementSystem :=
  {| allAccounts := [to_Account account_1000; to_Savings savings_500;
                     to_Fixed fixed_5000];
     dataFile := "bank_data.txt" |}.

End BankAccounts.

(* ===================================================================== *)
(** * Part II: properties                                                 *)
(* ===================================================================== *)

(** ** Facts about [int] *)

Section Int32Facts.
Import Int32.

Lemma wrap_in_range z : in_range z -> wrap z = z.
Proof.
  unfold in_range, wrap, INT_MIN, INT_MAX. intros Hz.
  rewrite Z.mod_small by lia. lia.
Qed.

Lemma wrap_range z : in_range (wrap z).
Proof.
  unfold in_range, wrap, INT_MIN, INT_MAX.
  pose proof (Z.mod_pos_bound (z + 2147483648) 4294967296 ltac:(lia)). lia.
Qed.

End Int32Facts.

(** ** checkDivisibility *)

Section CheckDivFacts.
Import Int32 CheckDivBySumAndProduct.

(** The loop always comes to its end within [loop_fuel]. *)
Lemma digit_loop_total fuel : forall temp s p,
  Z.abs temp < 2 ^ Z.of_nat fuel ->
  exists r, digit_loop fuel temp s p = Done r.
Proof.
  induction fuel as [|fuel IH]; intros temp s p Hlt; simpl digit_loop.
  - destruct (Z.eqb_spec temp 0) as [->|Hne]; [eauto|].
    change (2 ^ Z.of_nat 0) with 1 in Hlt. lia.
  - destruct (Z.eqb_spec temp 0) as [->|Hne]; [eauto|].
    apply IH.
    rewrite Nat2Z.inj_succ, Z.pow_succ_r in Hlt by lia.
    rewrite <- Z.quot_abs by lia.
    rewrite Z.quot_div_nonneg by lia.
    apply Z.div_lt_upper_bound; lia.
Qed.

Lemma loop_fuel_enough n : Z.abs n < 2 ^ Z.of_nat (loop_fuel n).
Proof.
  unfold loop_fuel. rewrite Nat2Z.inj_succ, Z2Nat.id by apply Z.log2_nonneg.
  destruct (Z.eq_dec n 0) as [->|Hn]; [reflexivity|].
  apply Z.log2_spec. lia.
Qed.

(** For every argument the fuel of [checkDivisibility] is enough. *)
Lemma checkDivisibility_fuel_enough n : checkDivisibility n <> OutOfFuel.
Proof.
  unfold checkDivisibility, res_of.
  destruct (digit_loop_total (loop_fuel n) n 0 1 (loop_fuel_enough n)) as ((s & p) & ->).
  destruct (add s p =? 0); [discriminate|].
  destruct ((n =? INT_MIN) && (add s p =? -1)); [discriminate|].
  destruct (negb (Z.rem n (add s p) =? 0)); discriminate.
Qed.

End CheckDivFacts.

Section CheckDivBounds.
Import Int32 CheckDivBySumAndProduct.

(** One iteration on a non-negative [temp]: quotient and remainder. *)
Lemma quot_rem_10 temp :
  0 <= temp ->
  temp = 10 * Z.quot temp 10 + Z.rem temp 10 /\
  0 <= Z.rem temp 10 <= 9 /\ 0 <= Z.quot temp 10 /\
  temp mod 10 = Z.rem temp 10 /\ temp / 10 = Z.quot temp 10.
Proof.
  intros Ht.
  pose proof (Z.quot_rem' temp 10).
  pose proof (Z.rem_bound_pos temp 10 Ht ltac:(lia)).
  pose proof (Z.quot_pos temp 10 Ht ltac:(lia)).
  rewrite Z.rem_mod_nonneg, Z.quot_div_nonneg in * by lia. lia.
Qed.

Lemma digits_le_0 fuel : digits_le fuel 0 = [].
Proof. destruct fuel; reflexivity. Qed.

Lemma digit_loop_0 fuel s p : digit_loop fuel 0 s p = Done (s, p).
Proof. destruct fuel; reflexivity. Qed.

(** The loop invariant.  [temp] has at most [k+1] digits and its digit of
    weight [10^k] is at most [D]; then no addition and no multiplication
    of the loop leaves the range of [int]: the loop adds the digits of
    [temp] to the sum and multiplies them into the product.  The sum grows
    by at most [9k+D], the product by at most the factor [9^k * D], and a
    non-zero [temp] contributes at least one to the sum. *)
Lemma digit_loop_bounds (k : nat) : forall fuel temp s p D,
  1 <= D <= 9 ->
  0 <= temp < (D + 1) * 10 ^ Z.of_nat k ->
  temp < 2 ^ Z.of_nat fuel ->
  0 <= s -> 0 <= p ->
  s + 9 * Z.of_nat k + D <= INT_MAX ->
  p * 9 ^ Z.of_nat k * D <= INT_MAX ->
  exists s' p',
    digit_loop fuel temp s p = Done (s', p') /\
    s' = s + foldr Z.add 0 (digits_le fuel temp) /\
    p' = p * foldr Z.mul 1 (digits_le fuel temp) /\
    s <= s' <= s + 9 * Z.of_nat k + D /\
    0 <= p' <= p * 9 ^ Z.of_nat k * D /\
    (0 < temp -> s + 1 <= s').
Proof.
  induction k as [|k IH]; intros fuel temp s p D HD Ht Hfuel Hs Hp HS HP.
  - change (10 ^ Z.of_nat 0) with 1 in Ht.
    change (9 ^ Z.of_nat 0) with 1 in *.
    rewrite Z.mul_1_r in *.
    assert (HpD : p <= p * D) by nia.
    destruct (Z.eq_dec temp 0) as [->|Hne].
    { exists s, p. rewrite digit_loop_0, digits_le_0. simpl.
      split; [reflexivity|]. lia. }
    destruct fuel as [|fuel];
      [change (2 ^ Z.of_nat 0) with 1 in Hfuel; lia|].
    simpl digit_loop. simpl digits_le.
    destruct (Z.eqb_spec temp 0) as [?|_]; [lia|].
    destruct (Z.leb_spec temp 0) as [?|_]; [lia|].
    destruct (quot_rem_10 temp ltac:(lia)) as (Hqr & Hr & Hq & -> & ->).
    assert (Hq0 : Z.quot temp 10 = 0) by lia.
    assert (Hrt : Z.rem temp 10 = temp) by lia.
    rewrite Hq0, Hrt.
    assert (Hpt : 0 <= p * temp <= p * D)
      by (split; [apply Z.mul_nonneg_nonneg | apply Z.mul_le_mono_nonneg_l]; lia).
    rewrite digit_loop_0, digits_le_0. unfold add, mul.
    rewrite !wrap_in_range by (unfold in_range, INT_MIN, INT_MAX in *; lia).
    exists (s + temp), (p * temp). simpl. rewrite Z.mul_1_r.
    split; [reflexivity|]. lia.
  - rewrite Nat2Z.inj_succ in *.
    rewrite Z.pow_succ_r in * by lia.
    assert (H9 : 1 <= 9 ^ Z.of_nat k) by (apply Z.pow_le_mono_r with (b := 0); lia).
    set (P := 9 ^ Z.of_nat k) in *.
    set (T := 10 ^ Z.of_nat k) in *.
    replace (p * (9 * P) * D) with (9 * (p * P * D)) in * by ring.
    replace ((D + 1) * (10 * T)) with (10 * ((D + 1) * T)) in Ht by ring.
    assert (HpP : p <= p * P) by nia.
    assert (HpX : p * P <= p * P * D) by nia.
    destruct (Z.eq_dec temp 0) as [->|Hne].
    { exists s, p. rewrite digit_loop_0, digits_le_0. simpl.
      split; [reflexivity|]. lia. }
    destruct fuel as [|fuel];
      [change (2 ^ Z.of_nat 0) with 1 in Hfuel; lia|].
    simpl digit_loop. simpl digits_le.
    destruct (Z.eqb_spec temp 0) as [?|_]; [lia|].
    destruct (Z.leb_spec temp 0) as [?|_]; [lia|].
    destruct (quot_rem_10 temp ltac:(lia)) as (Hqr & Hr & Hq & -> & ->).
    set (q := Z.quot temp 10) in *. set (r := Z.rem temp 10) in *.
    rewrite Nat2Z.inj_succ, Z.pow_succ_r in Hfuel by lia.
    assert (Hpr : 0 <= p * r <= p * 9)
      by (split; [apply Z.mul_nonneg_nonneg | apply Z.mul_le_mono_nonneg_l]; lia).
    assert (HprX : p * r * P * D <= 9 * (p * P * D)).
    { replace (p * r * P * D) with (r * (p * P * D)) by ring.
      apply Z.mul_le_mono_nonneg_r; lia. }
    unfold add, mul.
    rewrite !wrap_in_range by (unfold in_range, INT_MIN, INT_MAX in *; lia).
    destruct (IH fuel q (s + r) (p * r) D)
      as (s' & p' & Hrun & Hsum & Hprod & Hs' & Hp' & Hpos); try lia.
    exists s', p'. split; [exact Hrun|]. simpl foldr.
    split; [lia|]. split; [rewrite Hprod; ring|]. lia.
Qed.

(** On a positive [int] the loop returns, and its results are the plain
    mathematical sum and product of the digits: nothing wrapped around. *)
Lemma digit_loop_positive n :
  1 <= n <= INT_MAX ->
  exists s p,
    digit_loop (loop_fuel n) n 0 1 = Done (s, p) /\
    s = digit_sum n /\ p = digit_product n /\
    1 <= s <= 83 /\ 0 <= p <= 774840978.
Proof.
  intros Hn. unfold INT_MAX in Hn.
  destruct (digit_loop_bounds 9 (loop_fuel n) n 0 1 2)
    as (s & p & Hrun & Hsum & Hprod & Hs & Hp & Hpos).
  all: try (unfold INT_MAX; simpl; lia).
  - pose proof (loop_fuel_enough n). lia.
  - exists s, p. split; [exact Hrun|]. unfold digit_sum, digit_product, digits.
    simpl in Hs, Hp. lia.
Qed.

End CheckDivBounds.

Section CheckDivClaims.
Import Int32 CheckDivBySumAndProduct.

(** What the function computes on a positive [int]: whether [n] is a
    multiple of the SUM of its digit sum and its digit product. *)
Lemma checkDivisibility_spec n :
  1 <= n <= INT_MAX ->
  checkDivisibility n = Done (Z.rem n (digit_sum n + digit_product n) =? 0).
Proof.
  intros Hn.
  destruct (digit_loop_positive n Hn) as (s & p & Hrun & <- & <- & Hs & Hp).
  unfold checkDivisibility, res_of. rewrite Hrun. unfold add.
  rewrite wrap_in_range by (unfold in_range, INT_MIN, INT_MAX; lia).
  destruct (Z.eqb_spec (s + p) 0) as [?|_]; [lia|].
  destruct (Z.eqb_spec n INT_MIN) as [?|_]; [unfold INT_MIN, INT_MAX in *; lia|].
  simpl. now destruct (Z.rem n (s + p) =? 0).
Qed.

(** C9: for every [int] n >= 1 the loop of [checkDivisibility] returns a
    digit sum of at least 1 and a digit product of at least 0, so the
    divisor [res = digitSum + digitProduct] is at least 1; [n % res] then
    never divides by zero and the function returns a boolean. *)
Theorem checkDivisibility_divisor_positive n :
  1 <= n <= INT_MAX ->
  exists digitSum digitProduct,
    digit_loop (loop_fuel n) n 0 1 = Done (digitSum, digitProduct) /\
    1 <= digitSum /\ 0 <= digitProduct /\
    res_of n = Done (digitSum + digitProduct) /\
    1 <= digitSum + digitProduct /\
    checkDivisibility n = Done (Z.rem n (digitSum + digitProduct) =? 0).
Proof.
  intros Hn.
  destruct (digit_loop_positive n Hn) as (s & p & Hrun & Es & Ep & Hs & Hp).
  exists s, p. split; [exact Hrun|]. repeat split; try lia.
  - unfold res_of. rewrite Hrun. unfold add.
    now rewrite wrap_in_range by (unfold in_range, INT_MIN, INT_MAX; lia).
  - rewrite Es, Ep. now apply checkDivisibility_spec.
Qed.

Lemma checkDivisibility_divisor_positive_witness :
  1 <= 12 <= INT_MAX /\
  exists digitSum digitProduct,
    digit_loop (loop_fuel 12) 12 0 1 = Done (digitSum, digitProduct) /\
    1 <= digitSum /\ 0 <= digitProduct /\
    res_of 12 = Done (digitSum + digitProduct) /\
    1 <= digitSum + digitProduct /\
    checkDivisibility 12 = Done (Z.rem 12 (digitSum + digitProduct) =? 0).
Proof.
  split; [unfold INT_MAX; lia|].
  apply (checkDivisibility_divisor_positive 12). unfold INT_MAX; lia.
Defined.

Example digits_2024 : digits 2024 = [4; 2; 0; 2].
Proof. reflexivity. Qed.

Example checkDivisibility_99 : checkDivisibility 99 = Done true.
Proof. reflexivity. Qed.

(** C4: the first example of the file's own problem statement.  The digit
    sum of 12 is 3 and the digit product is 2; 12 is divisible by 3, so
    the statement asks for [true], but the function tests divisibility by
    3 + 2 = 5 and returns [false]. *)
Theorem checkDivisibility_example1_fails :
  digit_sum 12 = 3 /\ digit_product 12 = 2 /\
  divisible_by_sum_or_product 12 /\
  checkDivisibility 12 = Done false.
Proof.
  repeat split; try reflexivity.
  left. exists 4. reflexivity.
Qed.

End CheckDivClaims.

(** ** merge *)

Section MergeFacts.
Import Int32 MergeSortedArr.

Example merge_example1 :
  merge [1; 2; 3; 0; 0; 0] 3 [2; 5; 6] 3 = Done [1; 2; 2; 3; 5; 6].
Proof. reflexivity. Qed.

Example merge_empty_nums1 : merge [0] 0 [1] 1 = Done [1].
Proof. reflexivity. Qed.

Example merge_empty_nums2 : merge [1] 1 [] 0 = Done [1].
Proof. reflexivity. Qed.

Example merge_short_nums1 : merge [1; 2] 2 [3] 1 = Undefined.
Proof. reflexivity. Qed.







Lemma merge_loop_S fuel nums1 nums2 i j endSize :
  merge_loop (S fuel) nums1 nums2 i j endSize =
  if j >=? 0 then
    match take_from_nums1 nums1 nums2 i j with
    | None => Undefined
    | Some true =>
        match read nums1 i with
        | None => Undefined
        | Some x =>
            match write nums1 endSize x with
            | None => Undefined
            | Some nums1' => merge_loop fuel nums1' nums2 (sub i 1) j (sub endSize 1)
            end
        end
    | Some false =>
        match read nums2 j with
        | None => Undefined
        | Some y =>
            match write nums1 endSize y with
            | None => Undefined
            | Some nums1' => merge_loop fuel nums1' nums2 i (sub j 1) (sub endSize 1)
            end
        end
    end
  else Done nums1.
Proof. reflexivity. Qed.

Lemma sub_1_in_range z : 0 <= z <= INT_MAX -> sub z 1 = z - 1.
Proof.
  intros Hz. unfold sub. apply wrap_in_range.
  unfold in_range, INT_MIN, INT_MAX in *. lia.
Qed.



Lemma write_Some (v v' : list Z) i x :
  write v i x = Some v' -> 0 <= i < Z.of_nat (length v) /\ length v' = length v.
Proof.
  unfold write.
  destruct (Z.leb_spec 0 i); destruct (Z.ltb_spec i (Z.of_nat (length v)));
    simpl; try discriminate.
  intros E. injection E as <-. rewrite length_insert. lia.
Qed.

(** The fuel of [merge] is enough for every call: an iteration either
    leaves the vectors or moves [endSize] one cell down. *)
Lemma merge_loop_fuel_enough fuel : forall nums1 nums2 i j endSize,
  in_range endSize ->
  endSize < Z.of_nat fuel \/ Z.of_nat (length nums1) <= endSize ->
  merge_loop (S fuel) nums1 nums2 i j endSize <> OutOfFuel.
Proof.
  induction fuel as [|fuel IH]; intros nums1 nums2 i j e Hrange He;
    rewrite merge_loop_S; (destruct (j >=? 0); [|discriminate]);
    (destruct (take_from_nums1 nums1 nums2 i j) as [[|]|]; [| |discriminate]).
  all: match goal with
       | |- context [match read ?v ?k with _ => _ end] =>
           destruct (read v k); [|discriminate]
       end.
  all: destruct (write nums1 e _) as [nums1'|] eqn:Hw; [|discriminate].
  all: apply write_Some in Hw as (Hbound & Hlen).
  all: try (simpl in He; lia).
  all: apply IH; [apply wrap_range|].
  all: rewrite sub_1_in_range
         by (unfold in_range, INT_MIN, INT_MAX in *; lia).
  all: rewrite Nat2Z.inj_succ in He; lia.
Qed.

Lemma merge_fuel_enough nums1 m nums2 n : merge nums1 m nums2 n <> OutOfFuel.
Proof.
  unfold merge. apply merge_loop_fuel_enough; [apply wrap_range|lia].
Qed.





End MergeFacts.

(** ** isSubsequence *)

Section IsSubsequenceFacts.
Import Int32 IsSubsequence.

Example isSubsequence_example1 :
  isSubsequence (list_ascii_of_string "abc") (list_ascii_of_string "ahbgdc") = Done true.
Proof. reflexivity. Qed.

Example isSubsequence_example2 :
  isSubsequence (list_ascii_of_string "axc") (list_ascii_of_string "ahbgdc") = Done false.
Proof. reflexivity. Qed.

Example isSubsequence_order :
  isSubsequence (list_ascii_of_string "aec") (list_ascii_of_string "abcde") = Done false.
Proof. reflexivity. Qed.

Lemma subsequence_nil_l t : subsequence [] t.
Proof. induction t; constructor; assumption. Qed.

Lemma subsequence_nil_r s : subsequence s [] -> s = [].
Proof. now inversion 1. Qed.

(** Dropping the first character of the shorter string keeps it a
    subsequence. *)
Lemma subsequence_tail c s t : subsequence (c :: s) t -> subsequence s t.
Proof.
  intros H. remember (c :: s) as cs eqn:E. revert c s E.
  induction H as [|c' s' t' H IH|c' s' t' H IH]; intros c s E.
  - discriminate.
  - injection E as -> ->. now constructor.
  - constructor. now apply (IH c).
Qed.

(** The two facts the greedy scan rests on. *)
Lemma subsequence_same c s t :
  subsequence (c :: s) (c :: t) <-> subsequence s t.
Proof.
  split; [|now constructor].
  inversion 1; subst; [assumption|]. now apply (subsequence_tail c).
Qed.

Lemma subsequence_other a b s t :
  a <> b -> subsequence (a :: s) (b :: t) <-> subsequence (a :: s) t.
Proof.
  intros Hab. split; [|now constructor].
  inversion 1; subst; [contradiction|assumption].
Qed.

Lemma size_t_of_int_small i : 0 <= i <= INT_MAX -> size_t_of_int i = i.
Proof.
  unfold size_t_of_int, INT_MAX. intros Hi. apply Z.mod_small. lia.
Qed.

Lemma add_1_in_range z : 0 <= z < INT_MAX -> add z 1 = z + 1.
Proof.
  intros Hz. unfold add. apply wrap_in_range.
  unfold in_range, INT_MIN, INT_MAX in *. lia.
Qed.

Lemma scan_done fuel s t i j :
  (size_t_of_int i <? str_length s) && (size_t_of_int j <? str_length t) = false ->
  scan fuel s t i j = Done i.
Proof. intros H. destruct fuel; simpl; now rewrite H. Qed.

Lemma str_at_middle (s1 s2 : cpp_string) c i :
  i = Z.of_nat (length s1) -> i <= INT_MAX -> str_at (s1 ++ c :: s2) i = Some c.
Proof.
  intros -> Hi. unfold str_at. rewrite size_t_of_int_small by lia.
  apply list_lookup_middle. now rewrite Nat2Z.id.
Qed.

Lemma scan_S fuel s t i j :
  scan (S fuel) s t i j =
  if (size_t_of_int i <? str_length s) && (size_t_of_int j <? str_length t) then
    match str_at s i, str_at t j with
    | Some a, Some b =>
        scan fuel s t (if Ascii.eqb a b then add i 1 else i) (add j 1)
    | _, _ => Undefined
    end
  else Done i.
Proof. reflexivity. Qed.

(** The loop invariant.  [i] characters of [s] (the prefix [s1]) have
    been matched within the first [j] characters of [t] (the prefix
    [t1]); the loop ends with [i] at the end of [s] exactly when the rest
    of [s] is a subsequence of the rest of [t]. *)
Lemma scan_correct (t2 : cpp_string) : forall fuel (s1 s2 t1 : cpp_string),
  (length t2 <= fuel)%nat ->
  str_length (t1 ++ t2) <= INT_MAX ->
  (length s1 <= length t1)%nat ->
  exists i',
    scan fuel (s1 ++ s2) (t1 ++ t2)
      (Z.of_nat (length s1)) (Z.of_nat (length t1)) = Done i' /\
    0 <= i' <= INT_MAX /\
    (i' = str_length (s1 ++ s2) <-> subsequence s2 t2).
Proof.
  unfold str_length.
  induction t2 as [|b t2 IH]; intros fuel s1 s2 t1 Hfuel Hmax Hij;
    rewrite length_app in Hmax; simpl in Hmax.
  - exists (Z.of_nat (length s1)). split; [|split; [lia|]].
    + apply scan_done. unfold str_length.
      rewrite !size_t_of_int_small, app_nil_r by lia.
      destruct (Z.ltb_spec (Z.of_nat (length t1)) (Z.of_nat (length t1))); [lia|].
      apply andb_false_r.
    + rewrite length_app. split.
      * intros Hlen. destruct s2; [constructor|simpl in Hlen; lia].
      * intros ->%subsequence_nil_r. simpl. lia.
  - destruct s2 as [|a s2].
    { exists (Z.of_nat (length s1)). split; [|split; [lia|]].
      - apply scan_done. unfold str_length.
        rewrite !size_t_of_int_small, app_nil_r by lia.
        now destruct (Z.ltb_spec (Z.of_nat (length s1)) (Z.of_nat (length s1))); [lia|].
      - rewrite app_nil_r. split; [intros _; apply subsequence_nil_l|reflexivity]. }
    destruct fuel as [|fuel]; [simpl in Hfuel; lia|]. simpl in Hfuel.
    rewrite scan_S. unfold str_length.
    rewrite !size_t_of_int_small by lia.
    rewrite !length_app. simpl length.
    destruct (Z.ltb_spec (Z.of_nat (length s1)) (Z.of_nat (length s1 + S (length s2))));
      [|lia].
    destruct (Z.ltb_spec (Z.of_nat (length t1)) (Z.of_nat (length t1 + S (length t2))));
      [|lia].
    simpl andb. cbv iota.
    rewrite !str_at_middle by lia.
    rewrite (add_1_in_range (Z.of_nat (length t1))) by lia.
    destruct (Ascii.eqb_spec a b) as [<-|Hab].
    + rewrite add_1_in_range by lia.
      destruct (IH fuel (s1 ++ [a]) s2 (t1 ++ [a])) as (i' & Hrun & Hi' & Hiff).
      * lia.
      * rewrite !length_app. simpl. lia.
      * rewrite !length_app. simpl. lia.
      * exists i'. split; [|split; [exact Hi'|]].
        -- rewrite <- Hrun. f_equal; rewrite <- ?app_assoc, ?length_app; simpl;
             first [reflexivity | lia].
        -- rewrite subsequence_same, <- Hiff, !length_app. simpl. lia.
    + destruct (IH fuel s1 (a :: s2) (t1 ++ [b])) as (i' & Hrun & Hi' & Hiff).
      * lia.
      * rewrite !length_app. simpl. lia.
      * rewrite !length_app. simpl. lia.
      * exists i'. split; [|split; [exact Hi'|]].
        -- rewrite <- Hrun. f_equal; rewrite <- ?app_assoc, ?length_app; simpl;
             first [reflexivity | lia].
        -- rewrite subsequence_other by exact Hab.
           rewrite <- Hiff, !length_app. simpl. lia.
Qed.

(** Past [INT_MAX] the counter [j] wraps to [INT_MIN], which converts to
    a [size_t] beyond every length: the loop stops there, and characters
    of [t] from position 2^31 on are never read. *)
Lemma scan_stops_at_INT_MAX (n : nat) (a b : ascii) (rest : cpp_string) :
  Z.of_nat n = 2147483648 ->
  a <> b ->
  str_length rest <= INT_MAX ->
  forall k m fuel,
    (m + S k = n)%nat -> (S k <= fuel)%nat ->
    scan fuel [b] (replicate n a ++ rest) 0 (Z.of_nat m) = Done 0.
Proof.
  intros Hn Hab Hrest.
  assert (str_length (replicate n a ++ rest) = 2147483648 + str_length rest) as Hlen.
  { unfold str_length. rewrite length_app, length_replicate. lia. }
  unfold str_length, INT_MAX in Hrest, Hlen.
  assert (forall m, (m < n)%nat ->
            str_at (replicate n a ++ rest) (Z.of_nat m) = Some a) as Hat.
  { intros m Hm. unfold str_at, size_t_of_int.
    rewrite Z.mod_small by lia. rewrite Nat2Z.id.
    etransitivity; [apply lookup_app_l; rewrite length_replicate; exact Hm|].
    now apply lookup_replicate_2. }
  assert (Ascii.eqb b a = false) as Hne.
  { apply Ascii.eqb_neq. congruence. }
  induction k as [|k IH]; intros m fuel Hm Hfuel;
    (destruct fuel as [|fuel]; [lia|]);
    rewrite scan_S; unfold str_length at 1 2; rewrite Hlen;
    unfold size_t_of_int at 1 2;
    rewrite (Z.mod_small 0), (Z.mod_small (Z.of_nat m)) by lia;
    simpl length;
    (destruct (Z.ltb_spec 0 (Z.of_nat 1)) as [_|Hfalse]; [|lia]);
    (destruct (Z.ltb_spec (Z.of_nat m) (2147483648 + Z.of_nat (length rest)))
       as [_|Hfalse]; [|lia]);
    simpl andb; cbv iota;
    rewrite Hat by lia;
    change (str_at [b] 0) with (Some b); cbv iota beta;
    rewrite Hne.
  - replace (add (Z.of_nat m) 1) with INT_MIN.
    + apply scan_done. apply andb_false_iff. right.
      unfold str_length. rewrite Hlen. apply Z.ltb_ge.
      unfold size_t_of_int, INT_MIN.
      change (-2147483648 mod 18446744073709551616) with 18446744071562067968.
      lia.
    + replace (Z.of_nat m) with 2147483647 by lia. reflexivity.
  - rewrite add_1_in_range by (unfold INT_MAX; lia).
    replace (Z.of_nat m + 1) with (Z.of_nat (S m)) by lia.
    apply IH; lia.
Qed.

Lemma subsequence_last (b : ascii) (t : cpp_string) : subsequence [b] (t ++ [b]).
Proof.
  induction t as [|c t IH]; simpl.
  - repeat constructor.
  - now constructor.
Qed.

(** C2, as the code has it: for [t] of a length that fits in an [int],
    [isSubsequence(s, t)] returns, and it returns [true] exactly when [s]
    is a subsequence of [t]; when [s] is empty it returns [true] for
    every [t]. *)
Theorem isSubsequence_correct (s t : cpp_string) :
  (str_length t <= INT_MAX ->
   exists b, isSubsequence s t = Done b /\ (b = true <-> subsequence s t)) /\
  isSubsequence [] t = Done true.
Proof.
  split.
  - intros Hmax.
    destruct (scan_correct t (length t) [] s []) as (i' & Hrun & Hi' & Hiff);
      [lia|exact Hmax|simpl; lia|].
    change (scan (length t) s t 0 0 = Done i') in Hrun.
    change (i' = str_length s <-> subsequence s t) in Hiff.
    unfold isSubsequence. rewrite Hrun.
    eexists. split; [reflexivity|].
    rewrite size_t_of_int_small by exact Hi'.
    rewrite <- Hiff. apply Z.eqb_eq.
  - unfold isSubsequence. rewrite scan_done by reflexivity. reflexivity.
Qed.

Lemma isSubsequence_correct_witness :
  str_length (list_ascii_of_string "ahbgdc") <= INT_MAX /\
  exists b,
    isSubsequence (list_ascii_of_string "abc") (list_ascii_of_string "ahbgdc") = Done b /\
    (b = true <->
     subsequence (list_ascii_of_string "abc") (list_ascii_of_string "ahbgdc")).
Proof.
  assert (Hlen : str_length (list_ascii_of_string "ahbgdc") <= INT_MAX)
    by (vm_compute; discriminate).
  split; [exact Hlen|].
  exact (proj1 (isSubsequence_correct (list_ascii_of_string "abc")
                  (list_ascii_of_string "ahbgdc")) Hlen).
Defined.

(** C2 fails for a [t] longer than [INT_MAX]: the one-letter string b is
    a subsequence of 2^31 times a followed by b, and [isSubsequence]
    returns [false], because the [int] counter [j] never reaches the
    last character. *)
Lemma isSubsequence_long_text_counterexample :
  subsequence one_b long_text /\ isSubsequence one_b long_text = Done false.
Proof.
  split; [apply subsequence_last|].
  assert (Z.of_nat (Z.to_nat 2147483648) = 2147483648) as Hn
    by (apply Z2Nat.id; discriminate).
  assert (Z.to_nat 2147483648 <> O) as Hpos by (intros E; rewrite E in Hn; discriminate Hn).
  unfold isSubsequence, long_text, one_b.
  destruct (Z.to_nat 2147483648) as [|k] eqn:Ek; [contradiction|].
  rewrite (scan_stops_at_INT_MAX (S k) "a"%char "b"%char ["b"%char] Hn
             ltac:(discriminate) ltac:(discriminate) k O); [reflexivity|lia|].
  rewrite length_app, length_replicate. lia.
Qed.

End IsSubsequenceFacts.

(** ** isSymmetric *)

Section SymmetricTreeFacts.
Import SymmetricTree.

(** Example 1 of the file: [1,2,2,3,4,4,3]. *)
Example isSymmetric_example1 :
  isSymmetric
    (node 1 (node 2 (node 3 nullptr nullptr) (node 4 nullptr nullptr))
            (node 2 (node 4 nullptr nullptr) (node 3 nullptr nullptr))) = true.
Proof. reflexivity. Qed.

(** Example 2 of the file: [1,2,2,null,3,null,3]. *)
Example isSymmetric_example2 :
  isSymmetric
    (node 1 (node 2 nullptr (node 3 nullptr nullptr))
            (node 2 nullptr (node 3 nullptr nullptr))) = false.
Proof. reflexivity. Qed.

Lemma mirror_involutive t : mirror (mirror t) = t.
Proof. induction t as [|v l IHl r IHr]; simpl; congruence. Qed.

(** [isMirror] decides whether one tree is the mirror image of the other. *)
Lemma isMirror_iff leftRoot : forall rightRoot,
  isMirror leftRoot rightRoot = true <-> leftRoot = mirror rightRoot.
Proof.
  induction leftRoot as [|lv ll IHl lr IHr]; intros [|rv rl rr]; simpl;
    try (split; [discriminate|congruence]); [tauto|].
  rewrite !andb_true_iff, Z.eqb_eq, IHl, IHr.
  split; [intros ((-> & ->) & ->); reflexivity|].
  intros E. injection E as -> -> ->. auto.
Qed.

(** C3, as the code has it: on a non-empty tree [isSymmetric] returns
    [true] exactly when the tree is its own mirror image; on the empty
    tree the guard [if (!root) return false] makes it return [false]. *)
Theorem isSymmetric_nonempty_iff :
  (forall val l r,
     isSymmetric (node val l r) = true <-> symmetric (node val l r)) /\
  isSymmetric nullptr = false.
Proof.
  split; [|reflexivity].
  intros v l r. unfold symmetric. simpl. rewrite isMirror_iff. split.
  - intros ->. now rewrite mirror_involutive.
  - intros E. injection E as E1 E2. congruence.
Qed.

(** C3 fails at the empty tree: it is its own mirror image, and
    [isSymmetric] returns [false] for it. *)
Lemma isSymmetric_empty_counterexample :
  ~ (isSymmetric nullptr = true <-> symmetric nullptr).
Proof.
  intros [_ H]. specialize (H eq_refl). discriminate H.
Qed.

End SymmetricTreeFacts.

(** ** The dry run problems of the bank file *)

Section DryRunFacts.
Import Int32 Console.

Lemma string_append_assoc (a b c : string) :
  ((a ++ b) ++ c = a ++ (b ++ c))%string.
Proof. induction a as [|ch a IH]; simpl; congruence. Qed.

(** The order of construction and destruction, for any two values: base
    constructor, derived constructor, derived destructor, base destructor. *)
Lemma lifecycle_order val1 val2 :
  output (bind (LifecycleDryRun.new_Derived val1 val2) LifecycleDryRun.delete) =
  ("Base(" ++ to_string val1 ++ ")" ++ "Derived(" ++ to_string val2 ++ ")" ++
   "~Derived(" ++ to_string val2 ++ ")" ++ "~Base(" ++ to_string val1 ++ ")")%string.
Proof.
  unfold output, bind, LifecycleDryRun.new_Derived, LifecycleDryRun.delete,
    LifecycleDryRun.Derived_ctor, LifecycleDryRun.Derived_dtor,
    LifecycleDryRun.Base_ctor, LifecycleDryRun.Base_dtor,
    bind, ret, put_string, put_int.
  cbn [snd fst LifecycleDryRun.x LifecycleDryRun.y LifecycleDryRun.Derived_Base].
  rewrite !string_append_assoc. reflexivity.
Qed.

(** [cout << b1 + b2] prints the sum of the two balances plus 100, as long
    as that sum is an [int]. *)
Lemma Bank_plus_prints b1 b2 :
  in_range (OperatorDryRun.balance b1 + OperatorDryRun.balance b2) ->
  in_range (OperatorDryRun.balance b1 + OperatorDryRun.balance b2 + 100) ->
  output (OperatorDryRun.put_Bank (OperatorDryRun.Bank_plus b1 b2)) =
  ("Bank($" ++
   to_string (OperatorDryRun.balance b1 + OperatorDryRun.balance b2 + 100) ++ ")")%string.
Proof.
  intros H1 H2.
  unfold output, OperatorDryRun.put_Bank, OperatorDryRun.Bank_plus,
    bind, put_string, put_int, add.
  cbn [snd fst OperatorDryRun.balance].
  rewrite (wrap_in_range _ H1), (wrap_in_range _ H2).
  rewrite !string_append_assoc. reflexivity.
Qed.

(** C6: constructing a [Derived(10, 20)] through a [Base*] and deleting
    it through the virtual destructor prints
    [Base(10)Derived(20)~Derived(20)~Base(10)]: base constructor, derived
    constructor, then the destructors in the reverse order. *)
Theorem lifecycle_dry_run_output :
  output LifecycleDryRun.main = "Base(10)Derived(20)~Derived(20)~Base(10)"%string.
Proof. reflexivity. Qed.

(** C5: for [Bank b1(1000), b2(2000)], [cout << b1 + b2] prints
    [Bank($3100)]. *)
Theorem operator_dry_run_output :
  output OperatorDryRun.main = "Bank($3100)"%string.
Proof. reflexivity. Qed.

End DryRunFacts.

(** ** Account::withdraw *)

Section AccountFacts.
Import BankManagement.

Example withdraw_200 :
  withdraw "Fri Oct 30 10:00:00 2026" 0 account_1000 200%float =
  (1,
   {| accountNumber := "ACC1"; balance := 800%float; accountType := "Savings";
      customerId := "C1";
      transactions :=
        [ {| transactionId := "TXN1"; amount := 200%float; type := "WITHDRAW";
             date := "Fri Oct 30 10:00:00 202"; description := "Cash withdrawal" |} ] |},
   Normal).
Proof. reflexivity. Qed.

Example withdraw_too_much :
  withdraw "Fri Oct 30 10:00:00 2026" 0 account_1000 2000%float =
  (0, account_1000, Throw (BankException "Insufficient funds")).
Proof. reflexivity. Qed.

(** A NaN amount passes both guards, as every comparison with it is
    false. *)
Example withdraw_nan :
  let '(_, this', c) :=
    withdraw "Fri Oct 30 10:00:00 2026" 0 account_1000 PrimFloat.nan in
  c = Normal /\ PrimFloat.is_nan (balance this') = true.
Proof. split; reflexivity. Qed.

(** C8: [Account::withdraw(amount)] throws a [BankException] exactly when
    [amount <= 0] or [amount > balance]; when it throws, the object (its
    balance and its transaction history) and the transaction counter are
    as before; when it returns normally, the balance is [balance - amount]
    and the history has grown by exactly one transaction, a WITHDRAW of
    [amount].  The comparisons and the subtraction are those of
    [double]. *)
Theorem Account_withdraw_spec ctime_now transactionCounter (this : Account) (amt : float) :
  let '(transactionCounter', this', c) := withdraw ctime_now transactionCounter this amt in
  (throws_BankException c <->
     PrimFloat.leb amt 0%float = true \/ PrimFloat.ltb (balance this) amt = true) /\
  (throws_BankException c \/ c = Normal) /\
  (throws_BankException c ->
     this' = this /\ transactionCounter' = transactionCounter) /\
  (c = Normal ->
     balance this' = PrimFloat.sub (balance this) amt /\
     exists txn,
       transactions this' = transactions this ++ [txn] /\
       type txn = "WITHDRAW"%string /\ amount txn = amt).
Proof.
  unfold withdraw, throws_BankException.
  destruct (PrimFloat.leb amt 0%float) eqn:Hle;
    [|destruct (PrimFloat.ltb (balance this) amt) eqn:Hlt]; simpl.
  - split; [split; eauto|]. split; [eauto|]. split; [auto|discriminate].
  - split; [split; eauto|]. split; [eauto|]. split; [auto|discriminate].
  - split; [split|].
    + intros (msg & Hmsg). discriminate Hmsg.
    + intros [H|H]; discriminate H.
    + split; [auto|]. split.
      * intros (msg & Hmsg). discriminate Hmsg.
      * intros _. split; [reflexivity|]. eexists. split; [reflexivity|]. split; reflexivity.
Qed.

Lemma Account_withdraw_spec_witness :
  let '(transactionCounter', this', c) :=
    withdraw "Fri Oct 30 10:00:00 2026" 0 account_1000 200%float in
  (throws_BankException c <->
     PrimFloat.leb 200%float 0%float = true \/
     PrimFloat.ltb (balance account_1000) 200%float = true) /\
  (throws_BankException c \/ c = Normal) /\
  (throws_BankException c -> this' = account_1000 /\ transactionCounter' = 0) /\
  (c = Normal ->
     balance this' = PrimFloat.sub (balance account_1000) 200%float /\
     exists txn,
       transactions this' = transactions account_1000 ++ [txn] /\
       type txn = "WITHDRAW"%string /\ amount txn = 200%float).
Proof.
  exact (Account_withdraw_spec "Fri Oct 30 10:00:00 2026" 0 account_1000 200%float).
Defined.

End AccountFacts.

(** ** Event *)

Section EventFacts.
Import DailyEventRecurring.

Example Event_ctor_meeting :
  Event_ctor 0 "Meeting" "Weekly" nine_oclock ten_oclock 5 = (1, inl meeting).
Proof. reflexivity. Qed.

Example Event_ctor_backwards :
  Event_ctor 0 "Meeting" "Weekly" ten_oclock nine_oclock 5 =
  (1, inr (EventException "Start time must be before end time")).
Proof. reflexivity. Qed.

Example setEndTime_backwards :
  setEndTime meeting nine_oclock =
  (meeting, Throw (EventException "End time must be after start time")).
Proof. reflexivity. Qed.

(** [operator>=] is the negation of [operator<]. *)
Lemma DateTime_ge_not_lt a b : DateTime_lt a b = false -> DateTime_ge a b = true.
Proof. unfold DateTime_ge. now intros ->. Qed.

(** The constructor returns an object only past its ordering test. *)
Lemma Event_ctor_start_before_end eventCounter t desc start end_ p eventCounter' e :
  Event_ctor eventCounter t desc start end_ p = (eventCounter', inl e) ->
  start_before_end e.
Proof.
  unfold Event_ctor, start_before_end, DateTime_ge. simpl.
  destruct ((p <? 1) || (p >? 10)); [discriminate|].
  destruct (DateTime_lt start end_) eqn:Hlt; simpl; [|discriminate].
  intros E. injection E as _ <-. exact Hlt.
Qed.

Lemma setStartTime_start_before_end e start :
  start_before_end e -> start_before_end (fst (setStartTime e start)).
Proof.
  unfold setStartTime, start_before_end, DateTime_ge.
  destruct (DateTime_lt start (endTime e)) eqn:Hlt; simpl; auto.
Qed.

Lemma setEndTime_start_before_end e end_ :
  start_before_end e -> start_before_end (fst (setEndTime e end_)).
Proof.
  unfold setEndTime, start_before_end, DateTime_ge.
  destruct (DateTime_lt (startTime e) end_) eqn:Hlt; simpl; auto.
Qed.

Lemma setPriority_start_before_end e p :
  start_before_end e -> start_before_end (fst (setPriority e p)).
Proof.
  unfold setPriority, start_before_end.
  destruct ((p <? 1) || (p >? 10)); simpl; auto.
Qed.

(** C10: the constructor of [Event] throws an [EventException] when the
    start time is not before the end time; [setStartTime] and [setEndTime]
    throw an [EventException] and leave the event as it was when the new
    value is not in order with the other time; hence every [Event] object,
    newly constructed or after any calls of its setters, has
    [startTime < endTime]. *)
Theorem Event_start_before_end :
  (forall eventCounter t desc start end_ p,
     DateTime_lt start end_ = false ->
     exists eventCounter' e,
       Event_ctor eventCounter t desc start end_ p = (eventCounter', inr e) /\
       throws_EventException (Throw e)) /\
  (forall e start,
     DateTime_lt start (endTime e) = false ->
     fst (setStartTime e start) = e /\
     throws_EventException (snd (setStartTime e start))) /\
  (forall e end_,
     DateTime_lt (startTime e) end_ = false ->
     fst (setEndTime e end_) = e /\
     throws_EventException (snd (setEndTime e end_))) /\
  (forall e, Event_object e -> start_before_end e).
Proof.
  split; [|split; [|split]].
  - intros eventCounter t desc start end_ p Hlt.
    unfold Event_ctor, throws_EventException, DateTime_ge. simpl. rewrite Hlt.
    destruct ((p <? 1) || (p >? 10)); simpl; eauto.
  - intros e start Hlt. unfold setStartTime, throws_EventException, DateTime_ge.
    rewrite Hlt. simpl. eauto.
  - intros e end_ Hlt. unfold setEndTime, throws_EventException, DateTime_ge.
    rewrite Hlt. simpl. eauto.
  - intros e He.
    induction He as [c t desc start end_ p c' e Hctor
                    | e t He IH | e desc He IH | e start He IH
                    | e end_ He IH | e p He IH].
    + exact (Event_ctor_start_before_end _ _ _ _ _ _ _ _ Hctor).
    + exact IH.
    + exact IH.
    + now apply setStartTime_start_before_end.
    + now apply setEndTime_start_before_end.
    + now apply setPriority_start_before_end.
Qed.

Lemma Event_start_before_end_witness :
  Event_object (fst (setStartTime meeting ten_oclock)) /\
  start_before_end (fst (setStartTime meeting ten_oclock)).
Proof.
  assert (Hobj : Event_object (fst (setStartTime meeting ten_oclock))).
  { apply after_setStartTime.
    apply (constructed 0 "Meeting" "Weekly" nine_oclock ten_oclock 5 1 meeting).
    reflexivity. }
  split; [exact Hobj|].
  exact (proj2 (proj2 (proj2 Event_start_before_end)) _ Hobj).
Defined.

End EventFacts.

(** ** DateTime *)

Section DateTimeFacts.
Import Int32 DailyEventRecurring DateTimeOps.

Example addDays_month_end :
  addDays {| year := 2024; month := 12; day := 30; hour := 9; minute := 0 |} 3 =
  Done {| year := 2025; month := 1; day := 2; hour := 9; minute := 0 |}.
Proof. reflexivity. Qed.

Example addMinutes_year_end :
  addMinutes {| year := 2024; month := 12; day := 31; hour := 23; minute := 59 |} 1 =
  Done {| year := 2025; month := 1; day := 1; hour := 0; minute := 0 |}.
Proof. reflexivity. Qed.

Lemma valid_iff d :
  valid d <->
  1900 <= year d <= 2100 /\ 1 <= month d <= 12 /\ 1 <= day d <= 31 /\
  0 <= hour d <= 23 /\ 0 <= minute d <= 59.
Proof.
  unfold valid, validate.
  repeat match goal with
         | |- context [?a <? ?b] => destruct (Z.ltb_spec a b)
         | |- context [?a >? ?b] => destruct (Z.gtb_spec a b)
         end; simpl; split; intros Hv; try discriminate; try reflexivity; lia.
Qed.

End DateTimeFacts.

Section DateTimeOrder.
Import Int32 DailyEventRecurring DateTimeOps.

(** [operator<] compares year, month, day, hour and minute in this order. *)
Lemma DateTime_lt_iff a b :
  DateTime_lt a b = true <->
  year a < year b \/ year a = year b /\
  (month a < month b \/ month a = month b /\
   (day a < day b \/ day a = day b /\
    (hour a < hour b \/ hour a = hour b /\ minute a < minute b))).
Proof.
  unfold DateTime_lt.
  destruct (Z.eqb_spec (year a) (year b)); simpl; [|rewrite Z.ltb_lt; lia].
  destruct (Z.eqb_spec (month a) (month b)); simpl; [|rewrite Z.ltb_lt; lia].
  destruct (Z.eqb_spec (day a) (day b)); simpl; [|rewrite Z.ltb_lt; lia].
  destruct (Z.eqb_spec (hour a) (hour b)); simpl; rewrite Z.ltb_lt; lia.
Qed.

Lemma DateTime_eq_iff a b : DateTime_eq a b = true <-> a = b.
Proof.
  unfold DateTime_eq. rewrite !andb_true_iff, !Z.eqb_eq.
  destruct a, b; simpl. split.
  - intros ((((-> & ->) & ->) & ->) & ->). reflexivity.
  - intros E. injection E as -> -> -> -> ->. auto.
Qed.

(** X1: [DateTime::operator<] is a strict total order on all [DateTime]
    values, with [operator==] as its equality: it is irreflexive and
    transitive, and of two dates exactly one is before the other unless
    they are equal; [operator==] holds exactly for equal dates. *)
Theorem DateTime_lt_strict_total_order :
  (forall a, DateTime_lt a a = false) /\
  (forall a b c,
     DateTime_lt a b = true -> DateTime_lt b c = true -> DateTime_lt a c = true) /\
  (forall a b,
     (DateTime_lt a b = true /\ DateTime_eq a b = false /\ DateTime_lt b a = false) \/
     (DateTime_lt a b = false /\ DateTime_eq a b = true /\ DateTime_lt b a = false) \/
     (DateTime_lt a b = false /\ DateTime_eq a b = false /\ DateTime_lt b a = true)) /\
  (forall a b, DateTime_eq a b = true <-> a = b).
Proof.
  split; [|split; [|split]].
  - intros a. apply not_true_is_false. rewrite DateTime_lt_iff. lia.
  - intros a b c. rewrite !DateTime_lt_iff. lia.
  - intros a b.
    assert (Heq : DateTime_eq a b = true <->
                  year a = year b /\ month a = month b /\ day a = day b /\
                  hour a = hour b /\ minute a = minute b).
    { unfold DateTime_eq. rewrite !andb_true_iff, !Z.eqb_eq. tauto. }
    pose proof (DateTime_lt_iff a b) as Hab.
    pose proof (DateTime_lt_iff b a) as Hba.
    destruct (DateTime_lt a b), (DateTime_lt b a), (DateTime_eq a b);
      try (left; repeat split; reflexivity);
      try (right; left; repeat split; reflexivity);
      try (right; right; repeat split; reflexivity);
      exfalso.
    all: try (assert (true = true) as Ht by reflexivity;
              assert (false = true -> False) as Hf by discriminate;
              lia).
  - apply DateTime_eq_iff.
Qed.

End DateTimeOrder.

Section DateTimeArithmetic.
Import Int32 DailyEventRecurring DateTimeOps.

(** [setMonth] and [setYear] on a valid date: the value is stored, and the
    outcome is that of the range test on it. *)
Lemma setMonth_valid_date this m :
  valid this ->
  setMonth this m =
  (set_month this m,
   if (m <? 1) || (m >? 12) then Throw (EventException "Invalid month") else Normal).
Proof.
  intros Hv. apply valid_iff in Hv. destruct Hv as (Hy & Hm & Hd & Hh & Hmin).
  unfold setMonth, validate. simpl.
  destruct (Z.ltb_spec (year this) 1900); [lia|].
  destruct (Z.gtb_spec (year this) 2100); [lia|]. simpl.
  destruct ((m <? 1) || (m >? 12)); [reflexivity|].
  destruct (Z.ltb_spec (day this) 1); [lia|].
  destruct (Z.gtb_spec (day this) 31); [lia|].
  destruct (Z.ltb_spec (hour this) 0); [lia|].
  destruct (Z.gtb_spec (hour this) 23); [lia|].
  destruct (Z.ltb_spec (minute this) 0); [lia|].
  destruct (Z.gtb_spec (minute this) 59); [lia|]. reflexivity.
Qed.

Lemma setYear_valid_date this y :
  valid this ->
  setYear this y =
  (set_year this y,
   if (y <? 1900) || (y >? 2100) then Throw (EventException "Invalid year") else Normal).
Proof.
  intros Hv. apply valid_iff in Hv. destruct Hv as (Hy & Hm & Hd & Hh & Hmin).
  unfold setYear, validate. simpl.
  destruct ((y <? 1900) || (y >? 2100)); [reflexivity|].
  destruct (Z.ltb_spec (month this) 1); [lia|].
  destruct (Z.gtb_spec (month this) 12); [lia|].
  destruct (Z.ltb_spec (day this) 1); [lia|].
  destruct (Z.gtb_spec (day this) 31); [lia|].
  destruct (Z.ltb_spec (hour this) 0); [lia|].
  destruct (Z.gtb_spec (hour this) 23); [lia|].
  destruct (Z.ltb_spec (minute this) 0); [lia|].
  destruct (Z.gtb_spec (minute this) 59); [lia|]. reflexivity.
Qed.

(** X2: the setters of [DateTime] assign before they validate.  On a valid
    date, [setMonth(m)] returns normally exactly when [m] is a month;
    otherwise it throws an [EventException] and the object keeps the
    rejected value, so it is no longer valid.  The same holds for the
    other four setters with their ranges. *)
Theorem DateTime_setters_keep_rejected_value this v :
  valid this ->
  (month (fst (setMonth this v)) = v /\
   (snd (setMonth this v) = Normal <-> 1 <= v <= 12) /\
   (~ 1 <= v <= 12 ->
    snd (setMonth this v) = Throw (EventException "Invalid month") /\
    ~ valid (fst (setMonth this v)))) /\
  (year (fst (setYear this v)) = v /\
   (snd (setYear this v) = Normal <-> 1900 <= v <= 2100) /\
   (~ 1900 <= v <= 2100 ->
    snd (setYear this v) = Throw (EventException "Invalid year") /\
    ~ valid (fst (setYear this v)))) /\
  (day (fst (setDay this v)) = v /\
   (snd (setDay this v) = Normal <-> 1 <= v <= 31) /\
   (~ 1 <= v <= 31 ->
    snd (setDay this v) = Throw (EventException "Invalid day") /\
    ~ valid (fst (setDay this v)))) /\
  (hour (fst (setHour this v)) = v /\
   (snd (setHour this v) = Normal <-> 0 <= v <= 23) /\
   (~ 0 <= v <= 23 ->
    snd (setHour this v) = Throw (EventException "Invalid hour") /\
    ~ valid (fst (setHour this v)))) /\
  (minute (fst (setMinute this v)) = v /\
   (snd (setMinute this v) = Normal <-> 0 <= v <= 59) /\
   (~ 0 <= v <= 59 ->
    snd (setMinute this v) = Throw (EventException "Invalid minute") /\
    ~ valid (fst (setMinute this v)))).
Proof.
  intros Hv. apply valid_iff in Hv. destruct Hv as (Hy & Hm & Hd & Hh & Hmin).
  assert (Hlt : forall a b, a <= b -> (b <? a) = false) by (intros; lia).
  assert (Hgt : forall a b, a <= b -> (a >? b) = false) by (intros; lia).
  unfold setMonth, setYear, setDay, setHour, setMinute, valid, validate. simpl.
  rewrite !(Hlt 1900 (year this)), !(Hgt (year this) 2100),
    !(Hlt 1 (month this)), !(Hgt (month this) 12),
    !(Hlt 1 (day this)), !(Hgt (day this) 31),
    !(Hlt 0 (hour this)), !(Hgt (hour this) 23),
    !(Hlt 0 (minute this)), !(Hgt (minute this) 59) by lia.
  simpl.
  repeat split; try reflexivity; intros;
    repeat match goal with
           | |- context [?a <? ?b] => destruct (Z.ltb_spec a b)
           | |- context [?a >? ?b] => destruct (Z.gtb_spec a b)
           | H : context [?a <? ?b] |- _ => destruct (Z.ltb_spec a b)
           | H : context [?a >? ?b] |- _ => destruct (Z.gtb_spec a b)
           end; simpl in *; try reflexivity; try discriminate; try lia.
Qed.

Lemma DateTime_setters_keep_rejected_value_witness :
  valid nine_oclock /\
  snd (setMonth nine_oclock 13) = Throw (EventException "Invalid month") /\
  month (fst (setMonth nine_oclock 13)) = 13.
Proof.
  assert (Hv : valid nine_oclock) by reflexivity.
  split; [exact Hv|].
  pose proof (DateTime_setters_keep_rejected_value nine_oclock 13 Hv) as H.
  destruct H as ((Hm & _ & Hthrow) & _).
  split; [|exact Hm]. apply Hthrow. lia.
Defined.

(** One iteration of the loop of [addDays] moves 31 days into the next
    month and keeps the number of the day. *)
Lemma addDays_loop_spec fuel : forall r,
  month r <= 12 -> INT_MIN <= month r ->
  day r <= INT_MAX ->
  INT_MIN <= year r -> year r + day r / 31 <= INT_MAX ->
  (Z.to_nat (day r / 31) <= fuel)%nat ->
  exists r',
    addDays_loop fuel r = Done r' /\
    day_number r' = day_number r /\
    day r' <= 31 /\ (1 <= day r -> 1 <= day r') /\
    (day r <= 31 -> r' = r) /\
    month r' <= 12 /\ (1 <= month r -> 1 <= month r') /\
    year r <= year r' <= year r + Z.max 0 (day r / 31) /\
    hour r' = hour r /\ minute r' = minute r.
Proof.
  induction fuel as [|fuel IH]; intros r Hm Hm' Hd Hy Hy' Hfuel.
  - assert (day r <= 31).
    { destruct (Z_le_gt_dec (day r) 31) as [|Hgt]; [assumption|].
      assert (1 <= day r / 31) by (apply Z.div_le_lower_bound; lia). lia. }
    exists r. simpl. destruct (Z.gtb_spec (day r) 31); [lia|].
    repeat split; auto; lia.
  - simpl addDays_loop. destruct (Z.gtb_spec (day r) 31) as [Hgt|Hle].
    2: { exists r. repeat split; auto; lia. }
    assert (Hdiv : day r / 31 = (day r - 31) / 31 + 1).
    { replace (day r) with ((day r - 31) + 1 * 31) at 1 by ring.
      apply Z.div_add. lia. }
    assert (0 <= (day r - 31) / 31) by (apply Z.div_pos; lia).
    unfold sub, add. simpl.
    rewrite !wrap_in_range by (unfold in_range, INT_MIN, INT_MAX in *; lia).
    destruct (Z.gtb_spec (month r + 1) 12) as [Hwrap|Hnowrap].
    + destruct (IH (set_year (set_month
                  (set_month (set_day r (day r - 31)) (month r + 1)) 1) (year r + 1)))
        as (r' & Hrun & Hnum & Hd31 & Hd1 & Hsame & Hm12 & Hm1 & Hyr & Hh & Hmi);
        simpl; try (unfold INT_MIN, INT_MAX in *; lia).
      exists r'. split; [exact Hrun|].
      unfold day_number in *. simpl in *.
      repeat split; intros; try lia.
    + destruct (IH (set_month (set_day r (day r - 31)) (month r + 1)))
        as (r' & Hrun & Hnum & Hd31 & Hd1 & Hsame & Hm12 & Hm1 & Hyr & Hh & Hmi);
        simpl; try (unfold INT_MIN, INT_MAX in *; lia).
      exists r'. split; [exact Hrun|].
      unfold day_number in *. simpl in *.
      repeat split; intros; try lia.
Qed.

Lemma addDays_spec this days :
  1 <= month this <= 12 -> 1 <= day this <= 31 ->
  0 <= days <= INT_MAX - 31 ->
  INT_MIN <= year this -> year this + (day this + days) / 31 <= INT_MAX ->
  exists r,
    addDays this days = Done r /\
    day_number r = day_number this + days /\
    1 <= day r <= 31 /\ 1 <= month r <= 12 /\
    year this <= year r <= year this + (day this + days) / 31 /\
    hour r = hour this /\ minute r = minute this.
Proof.
  intros Hm Hd Hdays Hy Hy'. unfold addDays, add.
  rewrite wrap_in_range by (unfold in_range, INT_MIN, INT_MAX in *; lia).
  assert (0 <= (day this + days) / 31) by (apply Z.div_pos; lia).
  destruct (addDays_loop_spec (Z.to_nat (day (set_day this (day this + days)) / 31))
              (set_day this (day this + days)))
    as (r & Hrun & Hnum & Hd31 & Hd1 & _ & Hm12 & Hm1 & Hyr & Hh & Hmi);
    simpl; try (unfold INT_MIN, INT_MAX in *; lia).
  exists r. split; [exact Hrun|].
  unfold day_number in *. simpl in *. repeat split; lia.
Qed.

(** X3: on a valid date and for [0 <= days] (with [day + days] an
    [int]), [addDays] returns a date with its day in 1..31 and its month
    in 1..12 that lies exactly [days] days later in the calendar of
    31-day months; the time of day is kept and the result is never before
    the original.  The year is not validated: it may pass 2100. *)
Theorem addDays_advances this days :
  valid this -> 0 <= days <= INT_MAX - 31 ->
  exists r,
    addDays this days = Done r /\
    day_number r = day_number this + days /\
    1 <= day r <= 31 /\ 1 <= month r <= 12 /\
    hour r = hour this /\ minute r = minute this /\
    DateTime_lt r this = false.
Proof.
  intros Hv Hdays. apply valid_iff in Hv. destruct Hv as (Hy & Hm & Hd & Hh & Hmin).
  assert ((day this + days) / 31 <= INT_MAX / 31)
    by (apply Z.div_le_mono; lia).
  assert (Hq : INT_MAX / 31 = 69273666) by reflexivity.
  destruct (addDays_spec this days) as (r & Hrun & Hnum & Hd' & Hm' & Hy' & Hh' & Hmi');
    try (unfold INT_MIN, INT_MAX in *; lia).
  exists r. split; [exact Hrun|]. repeat split; try lia.
  apply not_true_is_false. rewrite DateTime_lt_iff.
  unfold day_number in Hnum. lia.
Qed.

Lemma addDays_advances_witness :
  valid nine_oclock /\ 0 <= 40 <= INT_MAX - 31 /\
  exists r,
    addDays nine_oclock 40 = Done r /\
    day_number r = day_number nine_oclock + 40 /\
    1 <= day r <= 31 /\ 1 <= month r <= 12 /\
    hour r = hour nine_oclock /\ minute r = minute nine_oclock /\
    DateTime_lt r nine_oclock = false.
Proof.
  assert (Hv : valid nine_oclock) by reflexivity.
  assert (Hd : 0 <= 40 <= INT_MAX - 31) by (unfold INT_MAX; lia).
  split; [exact Hv|]. split; [exact Hd|].
  exact (addDays_advances nine_oclock 40 Hv Hd).
Defined.

(** X4: [addDays] does not normalise backwards.  For [days <= 0] it only
    adds [days] to the day of the month; from a valid date, going back by
    the day of the month or more gives a date that [validate] refuses, and
    no exception is thrown. *)
Theorem addDays_backwards this days :
  valid this -> INT_MIN + 31 <= days <= 0 ->
  addDays this days = Done (set_day this (day this + days)) /\
  (days <= - day this -> ~ valid (set_day this (day this + days))).
Proof.
  intros Hv Hdays. apply valid_iff in Hv. destruct Hv as (Hy & Hm & Hd & Hh & Hmin).
  split.
  - unfold addDays, add.
    rewrite wrap_in_range by (unfold in_range, INT_MIN, INT_MAX in *; lia).
    destruct (addDays_loop_spec (Z.to_nat (day (set_day this (day this + days)) / 31))
                (set_day this (day this + days)))
      as (r & Hrun & _ & _ & _ & Hsame & _); simpl;
      try (unfold INT_MIN, INT_MAX in *; lia).
    + assert ((day this + days) / 31 <= 31 / 31) by (apply Z.div_le_mono; lia).
      change (31 / 31) with 1 in *. unfold INT_MAX. lia.
    + rewrite Hsame in Hrun by (simpl; lia). exact Hrun.
  - intros Hback Hvalid. apply valid_iff in Hvalid. simpl in Hvalid. lia.
Qed.

Lemma addDays_backwards_witness :
  valid nine_oclock /\
  addDays nine_oclock (-15) = Done (set_day nine_oclock 0) /\
  ~ valid (set_day nine_oclock 0).
Proof.
  assert (Hv : valid nine_oclock) by reflexivity.
  assert (Hd : INT_MIN + 31 <= -15 <= 0) by (unfold INT_MIN; lia).
  split; [exact Hv|].
  destruct (addDays_backwards nine_oclock (-15) Hv Hd) as (Hrun & Hinvalid).
  split; [exact Hrun|]. apply Hinvalid. simpl. lia.
Defined.

End DateTimeArithmetic.

Section DateTimeClock.
Import Int32 DailyEventRecurring DateTimeOps.

Lemma addHours_loop_spec fuel : forall r,
  1 <= month r <= 12 -> 1 <= day r <= 31 ->
  hour r <= INT_MAX ->
  INT_MIN <= year r -> year r + Z.max 0 (hour r / 24) + 1 <= INT_MAX ->
  (Z.to_nat (hour r / 24) <= fuel)%nat ->
  exists r',
    addHours_loop fuel r = Done r' /\
    hour_number r' = hour_number r /\
    hour r' <= 23 /\ (0 <= hour r -> 0 <= hour r') /\
    1 <= day r' <= 31 /\ 1 <= month r' <= 12 /\
    year r <= year r' <= year r + Z.max 0 (hour r / 24) /\
    minute r' = minute r.
Proof.
  induction fuel as [|fuel IH]; intros r Hm Hd Hh Hy Hy' Hfuel.
  - assert (hour r <= 23).
    { destruct (Z_le_gt_dec (hour r) 23) as [|Hgt]; [assumption|].
      assert (1 <= hour r / 24) by (apply Z.div_le_lower_bound; lia). lia. }
    exists r. simpl. destruct (Z.geb_spec (hour r) 24); [lia|].
    repeat split; auto; lia.
  - simpl addHours_loop. destruct (Z.geb_spec (hour r) 24) as [Hge|Hlt].
    2: { exists r. repeat split; auto; lia. }
    assert (Hdiv : hour r / 24 = (hour r - 24) / 24 + 1).
    { replace (hour r) with ((hour r - 24) + 1 * 24) at 1 by ring.
      apply Z.div_add. lia. }
    assert (0 <= (hour r - 24) / 24) by (apply Z.div_pos; lia).
    unfold sub.
    rewrite wrap_in_range by (unfold in_range, INT_MIN, INT_MAX in *; lia).
    assert (Hq : (day r + 1) / 31 <= 1).
    { change 1 with (32 / 31) at 2. apply Z.div_le_mono; lia. }
    assert (0 <= (day r + 1) / 31) by (apply Z.div_pos; lia).
    destruct (addDays_spec (set_hour r (hour r - 24)) 1)
      as (r1 & Hrun1 & Hnum1 & Hd1 & Hm1 & Hy1 & Hh1 & Hmi1);
      simpl; try (unfold INT_MIN, INT_MAX in *; lia).
    rewrite Hrun1. simpl in Hnum1, Hy1, Hh1, Hmi1.
    destruct (IH r1) as (r' & Hrun & Hnum & Hh23 & Hh0 & Hd' & Hm' & Hy'' & Hmi');
      rewrite ?Hh1; try (unfold INT_MIN, INT_MAX in *; lia).
    exists r'. split; [exact Hrun|].
    unfold hour_number, day_number in *. simpl in Hnum1. rewrite Hh1 in *.
    repeat split; intros; try lia.
Qed.

Lemma addHours_spec this hours :
  1 <= month this <= 12 -> 1 <= day this <= 31 -> 0 <= hour this <= 23 ->
  0 <= hours <= INT_MAX - 23 ->
  INT_MIN <= year this -> year this + (hour this + hours) / 24 + 1 <= INT_MAX ->
  exists r,
    addHours this hours = Done r /\
    hour_number r = hour_number this + hours /\
    0 <= hour r <= 23 /\ 1 <= day r <= 31 /\ 1 <= month r <= 12 /\
    year this <= year r <= year this + (hour this + hours) / 24 /\
    minute r = minute this.
Proof.
  intros Hm Hd Hh Hhours Hy Hy'. unfold addHours, add.
  rewrite wrap_in_range by (unfold in_range, INT_MIN, INT_MAX in *; lia).
  assert (0 <= (hour this + hours) / 24) by (apply Z.div_pos; lia).
  destruct (addHours_loop_spec (Z.to_nat (hour (set_hour this (hour this + hours)) / 24))
              (set_hour this (hour this + hours)))
    as (r & Hrun & Hnum & Hh23 & Hh0 & Hd' & Hm' & Hyr & Hmi);
    simpl; try (unfold INT_MIN, INT_MAX in *; lia).
  exists r. split; [exact Hrun|].
  unfold hour_number, day_number in *. simpl in *. repeat split; lia.
Qed.

Lemma addMinutes_loop_spec fuel : forall r,
  1 <= month r <= 12 -> 1 <= day r <= 31 -> 0 <= hour r <= 23 ->
  minute r <= INT_MAX ->
  INT_MIN <= year r -> year r + Z.max 0 (minute r / 60) + 2 <= INT_MAX ->
  (Z.to_nat (minute r / 60) <= fuel)%nat ->
  exists r',
    addMinutes_loop fuel r = Done r' /\
    minute_number r' = minute_number r /\
    minute r' <= 59 /\ (0 <= minute r -> 0 <= minute r') /\
    0 <= hour r' <= 23 /\ 1 <= day r' <= 31 /\ 1 <= month r' <= 12 /\
    year r <= year r' <= year r + Z.max 0 (minute r / 60).
Proof.
  induction fuel as [|fuel IH]; intros r Hm Hd Hh Hmin Hy Hy' Hfuel.
  - assert (minute r <= 59).
    { destruct (Z_le_gt_dec (minute r) 59) as [|Hgt]; [assumption|].
      assert (1 <= minute r / 60) by (apply Z.div_le_lower_bound; lia). lia. }
    exists r. simpl. destruct (Z.geb_spec (minute r) 60); [lia|].
    repeat split; auto; lia.
  - simpl addMinutes_loop. destruct (Z.geb_spec (minute r) 60) as [Hge|Hlt].
    2: { exists r. repeat split; auto; lia. }
    assert (Hdiv : minute r / 60 = (minute r - 60) / 60 + 1).
    { replace (minute r) with ((minute r - 60) + 1 * 60) at 1 by ring.
      apply Z.div_add. lia. }
    assert (0 <= (minute r - 60) / 60) by (apply Z.div_pos; lia).
    unfold sub.
    rewrite wrap_in_range by (unfold in_range, INT_MIN, INT_MAX in *; lia).
    assert (Hq : (hour r + 1) / 24 <= 1).
    { change 1 with (24 / 24) at 2. apply Z.div_le_mono; lia. }
    assert (0 <= (hour r + 1) / 24) by (apply Z.div_pos; lia).
    destruct (addHours_spec (set_minute r (minute r - 60)) 1)
      as (r1 & Hrun1 & Hnum1 & Hh1 & Hd1 & Hm1 & Hy1 & Hmi1);
      simpl; try (unfold INT_MIN, INT_MAX in *; lia).
    rewrite Hrun1. simpl in Hnum1, Hy1, Hmi1.
    destruct (IH r1) as (r' & Hrun & Hnum & Hmi59 & Hmi0 & Hh' & Hd' & Hm' & Hy'');
      rewrite ?Hmi1; try (unfold INT_MIN, INT_MAX in *; lia).
    exists r'. split; [exact Hrun|].
    unfold minute_number, hour_number, day_number in *. simpl in Hnum1.
    rewrite Hmi1 in *.
    repeat split; intros; try lia.
Qed.

(** X5: on a valid date and for [0 <= hours] (with [hour + hours] an
    [int]), [addHours] returns a date exactly [hours] hours later in the
    calendar of 31-day months, with its hour in 0..23, its day in 1..31
    and its month in 1..12, and the same minute. *)
Theorem addHours_advances this hours :
  valid this -> 0 <= hours <= INT_MAX - 23 ->
  exists r,
    addHours this hours = Done r /\
    hour_number r = hour_number this + hours /\
    0 <= hour r <= 23 /\ 1 <= day r <= 31 /\ 1 <= month r <= 12 /\
    minute r = minute this.
Proof.
  intros Hv Hhours. apply valid_iff in Hv. destruct Hv as (Hy & Hm & Hd & Hh & Hmin).
  assert ((hour this + hours) / 24 <= INT_MAX / 24)
    by (apply Z.div_le_mono; lia).
  assert (Hq : INT_MAX / 24 = 89478485) by reflexivity.
  destruct (addHours_spec this hours)
    as (r & Hrun & Hnum & Hh' & Hd' & Hm' & Hy' & Hmi');
    try (unfold INT_MIN, INT_MAX in *; lia).
  exists r. split; [exact Hrun|]. repeat split; lia.
Qed.

Lemma addHours_advances_witness :
  valid nine_oclock /\ 0 <= 100 <= INT_MAX - 23 /\
  exists r,
    addHours nine_oclock 100 = Done r /\
    hour_number r = hour_number nine_oclock + 100 /\
    0 <= hour r <= 23 /\ 1 <= day r <= 31 /\ 1 <= month r <= 12 /\
    minute r = minute nine_oclock.
Proof.
  assert (Hv : valid nine_oclock) by reflexivity.
  assert (Hh : 0 <= 100 <= INT_MAX - 23) by (unfold INT_MAX; lia).
  split; [exact Hv|]. split; [exact Hh|].
  exact (addHours_advances nine_oclock 100 Hv Hh).
Defined.

(** X6: on a valid date and for [0 <= minutes] (with [minute + minutes] an
    [int]), [addMinutes] returns a date exactly [minutes] minutes later in
    the calendar of 31-day months, with minute, hour, day and month in
    their ranges, and not before the original. *)
Theorem addMinutes_advances this minutes :
  valid this -> 0 <= minutes <= INT_MAX - 59 ->
  exists r,
    addMinutes this minutes = Done r /\
    minute_number r = minute_number this + minutes /\
    0 <= minute r <= 59 /\ 0 <= hour r <= 23 /\
    1 <= day r <= 31 /\ 1 <= month r <= 12 /\
    DateTime_lt r this = false.
Proof.
  intros Hv Hminutes. apply valid_iff in Hv.
  destruct Hv as (Hy & Hm & Hd & Hh & Hmin).
  unfold addMinutes, add.
  rewrite wrap_in_range by (unfold in_range, INT_MIN, INT_MAX in *; lia).
  assert (0 <= (minute this + minutes) / 60) by (apply Z.div_pos; lia).
  assert ((minute this + minutes) / 60 <= INT_MAX / 60)
    by (apply Z.div_le_mono; lia).
  assert (Hq : INT_MAX / 60 = 35791394) by reflexivity.
  destruct (addMinutes_loop_spec
              (Z.to_nat (minute (set_minute this (minute this + minutes)) / 60))
              (set_minute this (minute this + minutes)))
    as (r & Hrun & Hnum & Hmi59 & Hmi0 & Hh' & Hd' & Hm' & Hyr);
    simpl; try (unfold INT_MIN, INT_MAX in *; lia).
  exists r. split; [exact Hrun|].
  unfold minute_number, hour_number, day_number in *. simpl in *.
  repeat split; try lia.
  apply not_true_is_false. rewrite DateTime_lt_iff. lia.
Qed.

Lemma addMinutes_advances_witness :
  valid nine_oclock /\ 0 <= 90 <= INT_MAX - 59 /\
  exists r,
    addMinutes nine_oclock 90 = Done r /\
    minute_number r = minute_number nine_oclock + 90 /\
    0 <= minute r <= 59 /\ 0 <= hour r <= 23 /\
    1 <= day r <= 31 /\ 1 <= month r <= 12 /\
    DateTime_lt r nine_oclock = false.
Proof.
  assert (Hv : valid nine_oclock) by reflexivity.
  assert (Hm : 0 <= 90 <= INT_MAX - 59) by (unfold INT_MAX; lia).
  split; [exact Hv|]. split; [exact Hm|].
  exact (addMinutes_advances nine_oclock 90 Hv Hm).
Defined.

End DateTimeClock.

(** ** The recurring events *)

Section RecurringEventFacts.
Import Int32 DailyEventRecurring DateTimeOps RecurringEvents.

(** The sum that [getDayOfWeek] reduces modulo 7. *)
Lemma getDayOfWeek_no_overflow d :
  1 <= month d <= 12 -> 1 <= day d <= 31 -> 1900 <= year d <= 5880000 ->
  getDayOfWeek d = (day d + (month d - 1) * 31 + (year d - 1900) * 365) mod 7.
Proof.
  intros Hm Hd Hy. unfold getDayOfWeek, add, sub, mul.
  rewrite (wrap_in_range (month d - 1)), (wrap_in_range (year d - 1900))
    by (unfold in_range, INT_MIN, INT_MAX; lia).
  rewrite (wrap_in_range ((month d - 1) * 31)),
    (wrap_in_range ((year d - 1900) * 365))
    by (unfold in_range, INT_MIN, INT_MAX; lia).
  rewrite (wrap_in_range (day d + (month d - 1) * 31))
    by (unfold in_range, INT_MIN, INT_MAX; lia).
  rewrite wrap_in_range by (unfold in_range, INT_MIN, INT_MAX; lia).
  Z.to_euclidean_division_equations. lia.
Qed.

(** X7: on a valid date [getDayOfWeek] returns a number from 0 to 6, the
    remainder modulo 7 of [day + (month - 1) * 31 + (year - 1900) * 365]. *)
Theorem getDayOfWeek_range d :
  valid d ->
  0 <= getDayOfWeek d <= 6 /\
  getDayOfWeek d = (day d + (month d - 1) * 31 + (year d - 1900) * 365) mod 7.
Proof.
  intros Hv. apply valid_iff in Hv. destruct Hv as (Hy & Hm & Hd & _).
  rewrite getDayOfWeek_no_overflow by lia.
  split; [|reflexivity]. Z.to_euclidean_division_equations. lia.
Qed.

Lemma getDayOfWeek_range_witness :
  valid nine_oclock /\ 0 <= getDayOfWeek nine_oclock <= 6.
Proof.
  assert (Hv : valid nine_oclock) by reflexivity.
  split; [exact Hv|]. exact (proj1 (getDayOfWeek_range nine_oclock Hv)).
Defined.

(** X8: for a weekly event with a valid start time, a day of the week
    from 0 to 6 and a week interval of at least 1 (small enough for
    [7 * weekInterval] days to be added in [int]), [getNextOccurrence]
    returns a date that is more than [7 * (weekInterval - 1)] and at most
    [7 * weekInterval] days after the start, and whose [getDayOfWeek] is
    the day of the week of the event. *)
Theorem WeeklyEvent_next_on_weekday this :
  valid (startTime (Weekly_Event this)) ->
  0 <= dayOfWeek this <= 6 ->
  1 <= weekInterval this -> 7 * weekInterval this <= INT_MAX - 31 ->
  exists r k,
    WeeklyEvent_getNextOccurrence this = Done r /\
    day_number r = day_number (startTime (Weekly_Event this)) + k /\
    7 * (weekInterval this - 1) < k <= 7 * weekInterval this /\
    getDayOfWeek r = dayOfWeek this /\
    hour r = hour (startTime (Weekly_Event this)) /\
    minute r = minute (startTime (Weekly_Event this)).
Proof.
  intros Hv Hdw Hi Himax.
  set (start := startTime (Weekly_Event this)) in *.
  apply valid_iff in Hv. destruct Hv as (Hy & Hm & Hd & Hh & Hmin).
  pose proof (getDayOfWeek_no_overflow start ltac:(lia) ltac:(lia) ltac:(lia)) as Hceq.
  unfold WeeklyEvent_getNextOccurrence. fold start.
  set (c := getDayOfWeek start) in *.
  assert (Hc : 0 <= c <= 6)
    by (rewrite Hceq; Z.to_euclidean_division_equations; lia).
  assert (Hsub : sub (dayOfWeek this) c = dayOfWeek this - c)
    by (apply wrap_in_range; unfold in_range, INT_MIN, INT_MAX; lia).
  assert (Hadd : add (dayOfWeek this - c) 7 = dayOfWeek this - c + 7)
    by (apply wrap_in_range; unfold in_range, INT_MIN, INT_MAX; lia).
  assert (Hmul : mul 7 (weekInterval this) = 7 * weekInterval this)
    by (apply wrap_in_range; unfold in_range, INT_MIN, INT_MAX in *; lia).
  assert (Hsub1 : sub (weekInterval this) 1 = weekInterval this - 1)
    by (apply wrap_in_range; unfold in_range, INT_MIN, INT_MAX in *; lia).
  assert (Hmul1 : mul 7 (weekInterval this - 1) = 7 * (weekInterval this - 1))
    by (apply wrap_in_range; unfold in_range, INT_MIN, INT_MAX in *; lia).
  rewrite Hsub, Hadd, Hmul, Hsub1, Hmul1.
  set (d0 := Z.rem (dayOfWeek this - c + 7) 7).
  assert (Hd0 : 0 <= d0 <= 6 /\ exists q, dayOfWeek this - c + 7 = 7 * q + d0).
  { unfold d0. split; [Z.to_euclidean_division_equations; lia|].
    exists (Z.quot (dayOfWeek this - c + 7) 7). apply Z.quot_rem'. }
  destruct Hd0 as (Hd0 & q & Hq).
  assert (Hadd2 : add d0 (7 * (weekInterval this - 1)) = d0 + 7 * (weekInterval this - 1))
    by (apply wrap_in_range; unfold in_range, INT_MIN, INT_MAX in *; lia).
  rewrite Hadd2.
  set (k := if d0 =? 0 then 7 * weekInterval this
            else d0 + 7 * (weekInterval this - 1)).
  assert (Hk : 7 * (weekInterval this - 1) < k <= 7 * weekInterval this /\
               exists j, k = d0 + 7 * j).
  { unfold k. destruct (Z.eqb_spec d0 0) as [E|E].
    - split; [lia|]. exists (weekInterval this). lia.
    - split; [lia|]. exists (weekInterval this - 1). lia. }
  destruct Hk as (Hk & j & Hj).
  assert ((day start + k) / 31 <= INT_MAX / 31) by (apply Z.div_le_mono; lia).
  assert (Hq31 : INT_MAX / 31 = 69273666) by reflexivity.
  destruct (addDays_spec start k) as (r & Hrun & Hnum & Hd' & Hm' & Hy' & Hh' & Hmi');
    try (unfold INT_MIN, INT_MAX in *; lia).
  exists r, k. split; [exact Hrun|]. split; [exact Hnum|]. split; [exact Hk|].
  split; [|split; assumption].
  unfold day_number in Hnum.
  rewrite getDayOfWeek_no_overflow by (unfold INT_MAX in *; lia).
  symmetry. apply (Z.mod_unique _ _ ((day start + (month start - 1) * 31 +
    (year start - 1900) * 365) / 7 + 1 - q + j - (year r - year start))); [lia|].
  assert (Hc7 : day start + (month start - 1) * 31 + (year start - 1900) * 365 =
                7 * ((day start + (month start - 1) * 31 +
                      (year start - 1900) * 365) / 7) + c).
  { rewrite Hceq. apply Z.div_mod. lia. }
  lia.
Qed.

Lemma WeeklyEvent_next_on_weekday_witness :
  valid (startTime (Weekly_Event weekly_review)) /\
  exists r k,
    WeeklyEvent_getNextOccurrence weekly_review = Done r /\
    day_number r = day_number (startTime (Weekly_Event weekly_review)) + k /\
    7 * (weekInterval weekly_review - 1) < k <= 7 * weekInterval weekly_review /\
    getDayOfWeek r = dayOfWeek weekly_review /\
    hour r = hour (startTime (Weekly_Event weekly_review)) /\
    minute r = minute (startTime (Weekly_Event weekly_review)).
Proof.
  assert (Hv : valid (startTime (Weekly_Event weekly_review))) by reflexivity.
  split; [exact Hv|].
  apply (WeeklyEvent_next_on_weekday weekly_review Hv); simpl;
    unfold INT_MAX; lia.
Defined.

(** X9: [MonthlyEvent::getNextOccurrence] never rolls over into the next
    year.  With a valid start time it returns the start with
    [month + monthInterval] as its month when that is a month from 1 to
    12, and otherwise throws the [EventException] of [DateTime::setMonth]:
    the rollover code after the call of [setMonth] is never reached with a
    month above 12. *)
Theorem MonthlyEvent_next_never_rolls_over this :
  valid (startTime (Monthly_Event this)) ->
  INT_MIN + 12 <= monthInterval this <= INT_MAX - 12 ->
  let start := startTime (Monthly_Event this) in
  (1 <= month start + monthInterval this <= 12 ->
   MonthlyEvent_getNextOccurrence this =
   inl (set_month start (month start + monthInterval this))) /\
  (~ 1 <= month start + monthInterval this <= 12 ->
   MonthlyEvent_getNextOccurrence this = inr (EventException "Invalid month")).
Proof.
  intros Hv Hi start. fold start in Hv.
  unfold MonthlyEvent_getNextOccurrence. fold start. unfold add.
  rewrite wrap_in_range.
  2: { apply valid_iff in Hv. unfold in_range, INT_MIN, INT_MAX in *. lia. }
  rewrite (setMonth_valid_date start _ Hv).
  destruct (Z.ltb_spec (month start + monthInterval this) 1);
    destruct (Z.gtb_spec (month start + monthInterval this) 12);
    simpl; split; intros; try reflexivity; try lia.
  destruct (Z.gtb_spec (month start + monthInterval this) 12); [lia|reflexivity].
Qed.

Lemma MonthlyEvent_next_never_rolls_over_witness :
  valid (startTime (Monthly_Event (monthly_report 12 1))) /\
  MonthlyEvent_getNextOccurrence (monthly_report 12 1) =
  inr (EventException "Invalid month").
Proof.
  assert (Hv : valid (startTime (Monthly_Event (monthly_report 12 1))))
    by reflexivity.
  assert (Hi : INT_MIN + 12 <= monthInterval (monthly_report 12 1) <= INT_MAX - 12)
    by (unfold INT_MIN, INT_MAX; simpl; lia).
  split; [exact Hv|].
  apply (proj2 (MonthlyEvent_next_never_rolls_over (monthly_report 12 1) Hv Hi)).
  simpl. lia.
Defined.

(** X10: [YearlyEvent::getNextOccurrence] returns the start with
    [year + yearInterval] as its year when that is a year from 1900 to
    2100, and otherwise throws the [EventException] of
    [DateTime::setYear]. *)
Theorem YearlyEvent_next_within_2100 this :
  valid (startTime (Yearly_Event this)) ->
  INT_MIN <= yearInterval this <= INT_MAX - 2100 ->
  let start := startTime (Yearly_Event this) in
  (1900 <= year start + yearInterval this <= 2100 ->
   YearlyEvent_getNextOccurrence this =
   inl (set_year start (year start + yearInterval this))) /\
  (~ 1900 <= year start + yearInterval this <= 2100 ->
   YearlyEvent_getNextOccurrence this = inr (EventException "Invalid year")).
Proof.
  intros Hv Hi start. fold start in Hv.
  unfold YearlyEvent_getNextOccurrence. fold start. unfold add.
  rewrite wrap_in_range.
  2: { apply valid_iff in Hv. unfold in_range, INT_MIN, INT_MAX in *. lia. }
  rewrite (setYear_valid_date start _ Hv).
  destruct (Z.ltb_spec (year start + yearInterval this) 1900);
    destruct (Z.gtb_spec (year start + yearInterval this) 2100);
    simpl; split; intros; try reflexivity; lia.
Qed.

Lemma YearlyEvent_next_within_2100_witness :
  valid (startTime (Yearly_Event (annual_review 100))) /\
  YearlyEvent_getNextOccurrence (annual_review 100) =
  inr (EventException "Invalid year").
Proof.
  assert (Hv : valid (startTime (Yearly_Event (annual_review 100))))
    by reflexivity.
  assert (Hi : INT_MIN <= yearInterval (annual_review 100) <= INT_MAX - 2100)
    by (unfold INT_MIN, INT_MAX; simpl; lia).
  split; [exact Hv|].
  apply (proj2 (YearlyEvent_next_within_2100 (annual_review 100) Hv Hi)).
  simpl. lia.
Defined.

End RecurringEventFacts.

(** ** Event objects and the scheduler *)

Section EventObjectFacts.
Import Int32 DailyEventRecurring DateTimeOps RecurringEvents.

(** X11: every [Event] object, newly constructed or after any calls of
    its setters, has a priority from 1 to 10: the constructor and
    [setPriority] throw on any other value. *)
Theorem Event_priority_in_range e :
  Event_object e -> 1 <= priority e <= 10.
Proof.
  intros He.
  induction He as [c t desc start end_ p c' e Hctor
                  | e t He IH | e desc He IH | e start He IH
                  | e end_ He IH | e p He IH].
  - unfold Event_ctor in Hctor. simpl in Hctor.
    destruct (Z.ltb_spec p 1); [discriminate|].
    destruct (Z.gtb_spec p 10); [discriminate|]. simpl in Hctor.
    destruct (DateTime_ge start end_); [discriminate|].
    injection Hctor as _ <-. simpl. lia.
  - exact IH.
  - exact IH.
  - unfold setStartTime. destruct (DateTime_ge start (endTime e)); exact IH.
  - unfold setEndTime. destruct (DateTime_ge (startTime e) end_); exact IH.
  - unfold setPriority.
    destruct (Z.ltb_spec p 1); [exact IH|].
    destruct (Z.gtb_spec p 10); [exact IH|]. simpl. lia.
Qed.

Lemma Event_priority_in_range_witness :
  Event_object (fst (setPriority meeting 11)) /\
  1 <= priority (fst (setPriority meeting 11)) <= 10.
Proof.
  assert (Hobj : Event_object (fst (setPriority meeting 11))).
  { apply after_setPriority.
    apply (constructed 0 "Meeting" "Weekly" nine_oclock ten_oclock 5 1 meeting).
    reflexivity. }
  split; [exact Hobj|]. exact (Event_priority_in_range _ Hobj).
Defined.

(** X12: event ids are not unique.  The constructor gives an event the
    incremented counter as its id and the destructor decrements the
    counter; so after two events [a] and [b] are constructed and one event
    is destroyed, the next event constructed gets the id of [b], which
    still exists. *)
Theorem eventId_reused_after_destruction
    eventCounter ta da sa ea pa tb db sb eb pb td dd sd ed pd c1 a c2 b c3 d :
  INT_MIN <= eventCounter <= INT_MAX - 2 ->
  Event_ctor eventCounter ta da sa ea pa = (c1, inl a) ->
  Event_ctor c1 tb db sb eb pb = (c2, inl b) ->
  Event_ctor (Event_dtor c2) td dd sd ed pd = (c3, inl d) ->
  eventId a = eventCounter + 1 /\ eventId b = eventCounter + 2 /\
  eventId d = eventId b.
Proof.
  intros Hc Ha Hb Hd.
  assert (Hctor : forall c t de s e p c' x,
            INT_MIN <= c <= INT_MAX - 1 ->
            Event_ctor c t de s e p = (c', inl x) ->
            c' = c + 1 /\ eventId x = c + 1).
  { intros c t de s e p c' x Hrange. unfold Event_ctor, add. simpl.
    rewrite wrap_in_range by (unfold in_range, INT_MIN, INT_MAX in *; lia).
    destruct ((p <? 1) || (p >? 10)); [discriminate|].
    destruct (DateTime_ge s e); [discriminate|].
    intros E. injection E as <- <-. auto. }
  destruct (Hctor eventCounter ta da sa ea pa c1 a) as (-> & Hida);
    [unfold INT_MIN, INT_MAX in *; lia|exact Ha|].
  destruct (Hctor (eventCounter + 1) tb db sb eb pb c2 b) as (-> & Hidb);
    [unfold INT_MIN, INT_MAX in *; lia|exact Hb|].
  assert (Hdtor : Event_dtor (eventCounter + 1 + 1) = eventCounter + 1).
  { unfold Event_dtor, sub.
    rewrite wrap_in_range by (unfold in_range, INT_MIN, INT_MAX in *; lia). lia. }
  rewrite Hdtor in Hd.
  destruct (Hctor (eventCounter + 1) td dd sd ed pd c3 d) as (-> & Hidd);
    [unfold INT_MIN, INT_MAX in *; lia|exact Hd|].
  lia.
Qed.

Lemma eventId_reused_after_destruction_witness :
  exists a b d,
    Event_ctor 0 "A" "" nine_oclock ten_oclock 5 = (1, inl a) /\
    Event_ctor 1 "B" "" nine_oclock ten_oclock 5 = (2, inl b) /\
    Event_ctor (Event_dtor 2) "D" "" nine_oclock ten_oclock 5 = (2, inl d) /\
    eventId d = eventId b.
Proof.
  eexists _, _, _.
  split; [reflexivity|]. split; [reflexivity|]. split; [reflexivity|].
  refine (proj2 (proj2 (eventId_reused_after_destruction 0
    "A" "" nine_oclock ten_oclock 5 "B" "" nine_oclock ten_oclock 5
    "D" "" nine_oclock ten_oclock 5 1 _ 2 _ 2 _ _ eq_refl eq_refl eq_refl))).
  unfold INT_MIN, INT_MAX. lia.
Defined.

End EventObjectFacts.

Section SchedulerFacts.
Import Int32 DailyEventRecurring DateTimeOps RecurringEvents Scheduler.







End SchedulerFacts.

Section ConflictFacts.
Import Int32 DailyEventRecurring DateTimeOps RecurringEvents Scheduler.

Example checkConflicts_example :
  checkConflicts
    {| events := [to_Event meeting; to_WeeklyEvent weekly_review];
       currentDate := nine_oclock |} =
  [(to_Event meeting, to_WeeklyEvent weekly_review)].
Proof. reflexivity. Qed.




End ConflictFacts.

Section RecurrenceFacts.
Import Int32 DailyEventRecurring DateTimeOps RecurringEvents.

(** X16: [DailyEvent::updateNextOccurrence] on an event whose next
    occurrence is a valid date and whose recurrence pattern is at least 1
    makes the old next occurrence the last one, and the new next
    occurrence lies exactly [recurrencePattern] days after it. *)
Theorem updateNextOccurrence_advances this :
  valid (nextOccurrence this) ->
  1 <= recurrencePattern this <= INT_MAX - 31 ->
  exists this',
    updateNextOccurrence this = Done this' /\
    lastOccurrence this' = nextOccurrence this /\
    day_number (nextOccurrence this') =
      day_number (nextOccurrence this) + recurrencePattern this /\
    DateTime_lt (nextOccurrence this) (nextOccurrence this') = true /\
    recurrencePattern this' = recurrencePattern this /\
    Daily_Event this' = Daily_Event this.
Proof.
  intros Hv Hp. apply valid_iff in Hv. destruct Hv as (Hy & Hm & Hd & Hh & Hmin).
  assert ((day (nextOccurrence this) + recurrencePattern this) / 31 <= INT_MAX / 31)
    by (apply Z.div_le_mono; lia).
  assert (Hq : INT_MAX / 31 = 69273666) by reflexivity.
  destruct (addDays_spec (nextOccurrence this) (recurrencePattern this))
    as (r & Hrun & Hnum & Hd' & Hm' & Hy' & Hh' & Hmi');
    try (unfold INT_MIN, INT_MAX in *; lia).
  unfold updateNextOccurrence. rewrite Hrun. eexists. split; [reflexivity|].
  simpl. repeat split; try assumption.
  rewrite DateTime_lt_iff. unfold day_number in Hnum. lia.
Qed.

Lemma updateNextOccurrence_advances_witness :
  exists this',
    updateNextOccurrence daily_standup = Done this' /\
    lastOccurrence this' = nextOccurrence daily_standup /\
    day_number (nextOccurrence this') =
      day_number (nextOccurrence daily_standup) + recurrencePattern daily_standup /\
    DateTime_lt (nextOccurrence daily_standup) (nextOccurrence this') = true /\
    recurrencePattern this' = recurrencePattern daily_standup /\
    Daily_Event this' = Daily_Event daily_standup.
Proof.
  apply (updateNextOccurrence_advances daily_standup); [reflexivity|].
  unfold INT_MAX. simpl. lia.
Defined.

(** X17: when the [Event] part of a [WeeklyEvent] cannot be constructed,
    the constructor leaves the event counter incremented; when the
    [Event] part is constructed and the day of the week or the interval is
    refused, the [Event] part is destroyed again and the counter is back
    at its value before the call. *)
Theorem WeeklyEvent_ctor_counter eventCounter t desc start end_ day interval p :
  INT_MIN <= eventCounter < INT_MAX ->
  let r := WeeklyEvent_ctor eventCounter t desc start end_ day interval p in
  ((p < 1 \/ 10 < p \/ DateTime_lt start end_ = false) ->
   exists e, r = (eventCounter + 1, inr e)) /\
  (1 <= p <= 10 -> DateTime_lt start end_ = true ->
   (day < 0 \/ 6 < day \/ interval < 1) ->
   exists e, r = (eventCounter, inr e)) /\
  (1 <= p <= 10 -> DateTime_lt start end_ = true ->
   0 <= day <= 6 -> 1 <= interval ->
   exists this,
     r = (eventCounter + 1, inl this) /\
     eventId (Weekly_Event this) = eventCounter + 1 /\
     dayOfWeek this = day /\ weekInterval this = interval).
Proof.
  intros Hc r. subst r.
  assert (Hinc : wrap (eventCounter + 1) = eventCounter + 1)
    by (apply wrap_in_range; unfold in_range, INT_MIN, INT_MAX in *; lia).
  assert (Hdec : wrap (eventCounter + 1 - 1) = eventCounter).
  { rewrite wrap_in_range; [lia|].
    unfold in_range, INT_MIN, INT_MAX in *. lia. }
  unfold WeeklyEvent_ctor, Event_ctor, Event_dtor, add, sub.
  simpl. rewrite !Hinc.
  unfold DateTime_ge. split; [|split].
  - intros Hbad.
    destruct (Z.ltb_spec p 1); [simpl; eauto|].
    destruct (Z.gtb_spec p 10); [simpl; eauto|]. simpl.
    destruct (DateTime_lt start end_); simpl; [|eauto].
    destruct Hbad as [?|[?|?]]; [lia|lia|discriminate].
  - intros Hp Hlt Hbad. rewrite Hlt.
    destruct (Z.ltb_spec p 1); [lia|]. destruct (Z.gtb_spec p 10); [lia|].
    simpl. rewrite Hdec.
    destruct (Z.ltb_spec day 0); [simpl; eauto|].
    destruct (Z.gtb_spec day 6); [simpl; eauto|]. simpl.
    destruct (Z.ltb_spec interval 1); [eauto|]. lia.
  - intros Hp Hlt Hday Hint. rewrite Hlt.
    destruct (Z.ltb_spec p 1); [lia|]. destruct (Z.gtb_spec p 10); [lia|].
    simpl.
    destruct (Z.ltb_spec day 0); [lia|]. destruct (Z.gtb_spec day 6); [lia|].
    simpl.
    destruct (Z.ltb_spec interval 1); [lia|].
    eexists. split; [reflexivity|]. simpl. auto.
Qed.

Lemma WeeklyEvent_ctor_counter_witness :
  exists e,
    WeeklyEvent_ctor 0 "Weekly Review" "" nine_oclock ten_oclock 7 1 5 = (0, inr e).
Proof.
  refine (proj1 (proj2 (WeeklyEvent_ctor_counter 0 "Weekly Review" ""
            nine_oclock ten_oclock 7 1 5 _)) _ eq_refl _).
  - unfold INT_MIN, INT_MAX. lia.
  - lia.
  - lia.
Defined.

End RecurrenceFacts.

(** ** The account classes *)

Section AccountClassFacts.
Import Int32 BankManagement BankAccounts.

Variable env : Env.

(** X18: [Account::deposit(amount)] throws a [BankException] exactly when
    [amount <= 0]; when it throws, the object, the transaction counter and
    the console are as before; when it returns normally, the balance is
    [balance + amount] (in [double]), exactly one transaction, a DEPOSIT of
    [amount], is appended to the history, and nothing is printed. *)
Theorem Account_deposit_spec (w : World) (this : Account) (amt : float) :
  let '(w', this', c) := Account_deposit env w this amt in
  (throws_BankException c <-> PrimFloat.leb amt 0%float = true) /\
  (throws_BankException c \/ c = Normal) /\
  (throws_BankException c -> this' = this /\ w' = w) /\
  (c = Normal ->
     balance this' = PrimFloat.add (balance this) amt /\
     (exists txn,
        transactions this' = transactions this ++ [txn] /\
        type txn = "DEPOSIT"%string /\ amount txn = amt) /\
     accountNumber this' = accountNumber this /\
     cout w' = cout w).
Proof.
  unfold Account_deposit, throws_BankException.
  destruct (PrimFloat.leb amt 0%float) eqn:Hle; simpl.
  - split; [split; eauto|]. split; [eauto|]. split; [auto|discriminate].
  - split; [split|].
    + intros (msg & Hmsg). discriminate Hmsg.
    + discriminate.
    + split; [auto|]. split.
      * intros (msg & Hmsg). discriminate Hmsg.
      * intros _. split; [reflexivity|]. split; [|split; reflexivity].
        eexists. split; [reflexivity|]. split; reflexivity.
Qed.

(** What a normal return of [Account::withdraw] means. *)
Lemma Account_withdraw_Normal (w w' : World) (this this' : Account) amt :
  Account_withdraw env w this amt = (w', this', Normal) ->
  PrimFloat.leb amt 0%float = false /\
  PrimFloat.ltb (balance this) amt = false /\
  balance this' = PrimFloat.sub (balance this) amt /\
  accountNumber this' = accountNumber this /\
  (exists txn,
     transactions this' = transactions this ++ [txn] /\
     type txn = "WITHDRAW"%string /\ amount txn = amt) /\
  cout w' = cout w.
Proof.
  unfold Account_withdraw, withdraw.
  destruct (PrimFloat.leb amt 0%float); [discriminate|].
  destruct (PrimFloat.ltb (balance this) amt); [discriminate|].
  simpl. intros E. injection E as <- <-.
  repeat split; try reflexivity. eexists. repeat split; reflexivity.
Qed.

Lemma Account_withdraw_Throw (w w' : World) (this this' : Account) amt e :
  Account_withdraw env w this amt = (w', this', Throw e) ->
  w' = w /\ this' = this /\ throws_BankException (Throw e).
Proof.
  unfold Account_withdraw, withdraw.
  destruct (PrimFloat.leb amt 0%float).
  { intros E. injection E as <- <- <-.
    split; [now destruct w|]. split; [reflexivity|eexists; reflexivity]. }
  destruct (PrimFloat.ltb (balance this) amt).
  { intros E. injection E as <- <- <-.
    split; [now destruct w|]. split; [reflexivity|eexists; reflexivity]. }
  discriminate.
Qed.

(** A NaN amount passes the three tests of [SavingsAccount::withdraw],
    as every comparison with it is false: the call returns normally and
    the balance is NaN afterwards. *)
Example Savings_withdraw_nan :
  let '(_, this', c) :=
    Savings_withdraw sample_env start_of_day savings_500 PrimFloat.nan in
  c = Normal /\ PrimFloat.is_nan (balance (Savings_Account this')) = true.
Proof. split; reflexivity. Qed.

(** X19: [SavingsAccount::withdraw(amount)] throws a [BankException],
    changing nothing, exactly when one of the three [double] comparisons
    [balance - amount < minimumBalance], [amount <= 0] and
    [amount > balance] holds.  Otherwise it returns normally: the balance
    is [balance - amount], the comparison of the new balance with
    [minimumBalance] by [<] is false, one WITHDRAW transaction of
    [amount] is appended and one line is printed. *)
Theorem Savings_withdraw_spec (w : World) (this : SavingsAccount) (amt : float) :
  let '(w', this', c) := Savings_withdraw env w this amt in
  (throws_BankException c <->
     PrimFloat.ltb (PrimFloat.sub (balance (Savings_Account this)) amt)
       (minimumBalance this) = true \/
     PrimFloat.leb amt 0%float = true \/
     PrimFloat.ltb (balance (Savings_Account this)) amt = true) /\
  (throws_BankException c \/ c = Normal) /\
  (throws_BankException c -> this' = this /\ w' = w) /\
  (c = Normal ->
     balance (Savings_Account this') =
       PrimFloat.sub (balance (Savings_Account this)) amt /\
     PrimFloat.ltb (balance (Savings_Account this')) (minimumBalance this') = false /\
     minimumBalance this' = minimumBalance this /\
     interestRate this' = interestRate this /\
     (exists txn,
        transactions (Savings_Account this') =
          transactions (Savings_Account this) ++ [txn] /\
        type txn = "WITHDRAW"%string /\ amount txn = amt) /\
     cout w' =
       (cout w ++ "Withdrew $" ++ show_double env amt ++
        " from savings account" ++ endl)%string).
Proof.
  unfold Savings_withdraw, throws_BankException.
  destruct (PrimFloat.ltb (PrimFloat.sub (balance (Savings_Account this)) amt)
              (minimumBalance this)) eqn:Hmin.
  { split; [split; eauto|]. split; [eauto|]. split; [auto|discriminate]. }
  unfold Account_withdraw, withdraw.
  destruct (PrimFloat.leb amt 0%float) eqn:Hle.
  { split; [split; eauto|]. split; [eauto|]. split; [|discriminate].
    intros _. split; [now destruct this|now destruct w]. }
  destruct (PrimFloat.ltb (balance (Savings_Account this)) amt) eqn:Hlt.
  { split; [split; eauto|]. split; [eauto|]. split; [|discriminate].
    intros _. split; [now destruct this|now destruct w]. }
  simpl. split; [split|].
  - intros (msg & Hmsg). discriminate Hmsg.
  - intros [H|[H|H]]; discriminate H.
  - split; [auto|]. split.
    + intros (msg & Hmsg). discriminate Hmsg.
    + intros _. split; [reflexivity|]. split; [exact Hmin|].
      split; [reflexivity|]. split; [reflexivity|].
      split; [|reflexivity]. eexists. repeat split; reflexivity.
Qed.

(** X20: [CheckingAccount::withdraw] throws, changing nothing, exactly
    when [amount <= 0] or [balance + overdraftLimit < amount + fee];
    otherwise the balance goes down by [amount + transactionFee], two
    transactions are appended in this order, a WITHDRAW of [amount] and a
    FEE of [transactionFee], and the transaction counter has moved
    twice. *)
Theorem Checking_withdraw_spec (w : World) (this : CheckingAccount) (amt : float) :
  let '(w', this', c) := Checking_withdraw env w this amt in
  (throws_BankException c <->
     PrimFloat.leb amt 0%float = true \/
     PrimFloat.ltb
       (PrimFloat.add (balance (Checking_Account this)) (overdraftLimit this))
       (PrimFloat.add amt (transactionFee this)) = true) /\
  (throws_BankException c \/ c = Normal) /\
  (throws_BankException c -> this' = this /\ w' = w) /\
  (c = Normal ->
     balance (Checking_Account this') =
       PrimFloat.sub (balance (Checking_Account this))
         (PrimFloat.add amt (transactionFee this)) /\
     (exists txn fee,
        transactions (Checking_Account this') =
          transactions (Checking_Account this) ++ [txn; fee] /\
        type txn = "WITHDRAW"%string /\ amount txn = amt /\
        type fee = "FEE"%string /\ amount fee = transactionFee this) /\
     transactionCounter w' = add (add (transactionCounter w) 1) 1 /\
     overdraftLimit this' = overdraftLimit this /\
     transactionFee this' = transactionFee this).
Proof.
  unfold Checking_withdraw, throws_BankException.
  destruct (PrimFloat.leb amt 0%float) eqn:Hle; simpl.
  { split; [split; eauto|]. split; [eauto|]. split; [auto|discriminate]. }
  destruct (PrimFloat.ltb
              (PrimFloat.add (balance (Checking_Account this)) (overdraftLimit this))
              (PrimFloat.add amt (transactionFee this))) eqn:Hlt; simpl.
  { split; [split; eauto|]. split; [eauto|]. split; [auto|discriminate]. }
  split; [split|].
  - intros (msg & Hmsg). discriminate Hmsg.
  - intros [H|H]; discriminate H.
  - split; [auto|]. split.
    + intros (msg & Hmsg). discriminate Hmsg.
    + intros _. split; [reflexivity|]. split; [|repeat split; reflexivity].
      eexists _, _. rewrite <- app_assoc. simpl.
      split; [reflexivity|]. repeat split; reflexivity.
Qed.

(** X21: a fixed deposit refuses every deposit, and every withdrawal
    before maturity, with a [BankException] and no change; and
    [matureAccount] credits no interest: it sets [isMatured] first, so the
    [calculateInterest] it calls does nothing, and the balance, the
    history and the transaction counter stay as they were. *)
Theorem Fixed_deposit_never_credited (w : World) (this : FixedDepositAccount) (amt : float) :
  (let '(w', this', c) := Fixed_deposit env w this amt in
   throws_BankException c /\ this' = this /\ w' = w) /\
  (isMatured this = false ->
   let '(w', this', c) := Fixed_withdraw env w this amt in
   throws_BankException c /\ this' = this /\ w' = w) /\
  (let '(w', this') := matureAccount env w this in
   isMatured this' = true /\
   Fixed_Account this' = Fixed_Account this /\
   transactionCounter w' = transactionCounter w /\
   cout w' =
     (cout w ++ "Fixed deposit account matured on " ++ maturityDate this ++ endl)%string).
Proof.
  split; [|split].
  - simpl. split; [eexists; reflexivity|auto].
  - intros Hm. unfold Fixed_withdraw. rewrite Hm. simpl.
    split; [eexists; reflexivity|auto].
  - unfold matureAccount, Fixed_calculateInterest. simpl. auto.
Qed.

(** X22: before maturity every call of
    [FixedDepositAccount::calculateInterest] credits
    [depositAmount * interestRate] again: the balance grows by it and one
    INTEREST transaction is appended; after maturity the call does
    nothing. *)
Theorem Fixed_calculateInterest_spec (w : World) (this : FixedDepositAccount) :
  let '(w', this') := Fixed_calculateInterest env w this in
  (isMatured this = true -> this' = this /\ w' = w) /\
  (isMatured this = false ->
   let interest := PrimFloat.mul (depositAmount this) (Fixed_interestRate this) in
   balance (Fixed_Account this') =
     PrimFloat.add (balance (Fixed_Account this)) interest /\
   (exists txn,
      transactions (Fixed_Account this') =
        transactions (Fixed_Account this) ++ [txn] /\
      type txn = "INTEREST"%string /\ amount txn = interest) /\
   isMatured this' = false /\
   depositAmount this' = depositAmount this /\
   Fixed_interestRate this' = Fixed_interestRate this).
Proof.
  unfold Fixed_calculateInterest. destruct (isMatured this) eqn:Hm; simpl.
  - split; [auto|discriminate].
  - split; [discriminate|]. intros _. rewrite Hm.
    split; [reflexivity|]. split; [|repeat split; reflexivity].
    eexists. repeat split; reflexivity.
Qed.

End AccountClassFacts.


(** ** The bank: deposit and transfer by account number *)

Section BankSystemFacts.
Import Int32 BankManagement BankAccounts.

Variable env : Env.

Lemma set_allAccounts_same (this : BankManagementSystem) :
  set_allAccounts this (allAccounts this) = this.
Proof. now destruct this. Qed.

Lemma deposit_loop_none (w : World) (accounts : list Account_ptr) number amt :
  Forall (fun a => has_number number a = false) accounts ->
  deposit_loop env w accounts number amt =
    (w, accounts, Throw (BankException "Account not found")).
Proof.
  induction 1 as [|a rest Ha _ IH]; simpl; [reflexivity|].
  now rewrite Ha, IH.
Qed.

Lemma deposit_loop_first (w : World) (before after : list Account_ptr) a number amt :
  Forall (fun a => has_number number a = false) before ->
  has_number number a = true ->
  deposit_loop env w (before ++ a :: after) number amt =
    (let '(w', a', r) := virtual_deposit env w a amt in
     (w', before ++ a' :: after, r)).
Proof.
  intros Hbefore Ha.
  induction Hbefore as [|b rest Hb _ IH]; simpl.
  - rewrite Ha. now destruct (virtual_deposit env w a amt) as ((w' & a') & r).
  - rewrite Hb, IH. now destruct (virtual_deposit env w a amt) as ((w' & a') & r).
Qed.

(** X23: [BankManagementSystem::deposit] with a number that no account
    has changes no account and no counter; it prints
    "Error depositing money: Account not found" and returns normally. *)
Theorem BMS_deposit_unknown_account (w : World) (this : BankManagementSystem)
    (number : string) (amt : float) :
  Forall (fun a => has_number number a = false) (allAccounts this) ->
  BMS_deposit env w this number amt =
    (print w ("Error depositing money: Account not found" ++ endl)%string, this).
Proof.
  intros Hnone. unfold BMS_deposit.
  rewrite (deposit_loop_none w _ number amt Hnone). simpl.
  now rewrite set_allAccounts_same.
Qed.

(** X24: [BankManagementSystem::deposit] calls [deposit] on the first
    account with the number and on no other: the accounts before and
    after it are as they were, also when a later account has the same
    number; if the call throws, the message is printed after
    "Error depositing money: ". *)
Theorem BMS_deposit_first_match (w : World) (this : BankManagementSystem)
    (before after : list Account_ptr) (a : Account_ptr)
    (number : string) (amt : float) :
  allAccounts this = before ++ a :: after ->
  Forall (fun a => has_number number a = false) before ->
  has_number number a = true ->
  BMS_deposit env w this number amt =
    (let '(w', a', r) := virtual_deposit env w a amt in
     (match r with
      | Normal => w'
      | Throw e => print w' ("Error depositing money: " ++ what e ++ endl)%string
      end,
      set_allAccounts this (before ++ a' :: after))).
Proof.
  intros Hsplit Hbefore Ha. unfold BMS_deposit.
  rewrite Hsplit, (deposit_loop_first w before after a number amt Hbefore Ha).
  destruct (virtual_deposit env w a amt) as ((w' & a') & [|e]); reflexivity.
Qed.

(** The search loop of [transfer]. *)
Lemma transfer_scan_none_from (accounts : list Account_ptr) f t pos x y :
  Forall (fun a => has_number f a = false) accounts ->
  fst (transfer_scan accounts f t pos x y) = x.
Proof.
  intros H. revert pos x y.
  induction H as [|a rest Ha _ IH]; intros pos x y; simpl; [reflexivity|].
  now rewrite Ha, IH.
Qed.

Lemma transfer_scan_none_to (accounts : list Account_ptr) f t pos x y :
  Forall (fun a => has_number t a = false) accounts ->
  snd (transfer_scan accounts f t pos x y) = y.
Proof.
  intros H. revert pos x y.
  induction H as [|a rest Ha _ IH]; intros pos x y; simpl; [reflexivity|].
  now rewrite Ha, IH.
Qed.

Lemma transfer_scan_last_from (before after : list Account_ptr) a f t pos x y :
  has_number f a = true ->
  Forall (fun a => has_number f a = false) after ->
  fst (transfer_scan (before ++ a :: after) f t pos x y) =
    Some (pos + length before)%nat.
Proof.
  intros Ha Hafter. revert pos x y.
  induction before as [|b before IH]; intros pos x y; simpl.
  - rewrite Ha, transfer_scan_none_from by exact Hafter. f_equal. lia.
  - rewrite IH. f_equal. lia.
Qed.

Lemma transfer_scan_last_to (before after : list Account_ptr) a f t pos x y :
  has_number t a = true ->
  Forall (fun a => has_number t a = false) after ->
  snd (transfer_scan (before ++ a :: after) f t pos x y) =
    Some (pos + length before)%nat.
Proof.
  intros Ha Hafter. revert pos x y.
  induction before as [|b before IH]; intros pos x y; simpl.
  - rewrite Ha, transfer_scan_none_to by exact Hafter. f_equal. lia.
  - rewrite IH. f_equal. lia.
Qed.

(** A position the loop leaves in [fromAcc] or [toAcc] is the one it
    started with or that of an account with the number. *)
Lemma transfer_scan_found_from (accounts : list Account_ptr) f t pos x y i :
  fst (transfer_scan accounts f t pos x y) = Some i ->
  x = Some i \/
  exists a, (pos <= i)%nat /\ accounts !! (i - pos)%nat = Some a /\
            has_number f a = true.
Proof.
  revert pos x y. induction accounts as [|b rest IH]; intros pos x y; simpl.
  - auto.
  - intros H. apply IH in H as [H | (a & Hle & Hlook & Ha)].
    + destruct (has_number f b) eqn:Hb; [|auto].
      injection H as <-. right. exists b.
      split; [lia|]. now rewrite Nat.sub_diag.
    + right. exists a. split; [lia|]. split; [|exact Ha].
      replace (i - pos)%nat with (S (i - S pos)) by lia. exact Hlook.
Qed.

Lemma transfer_scan_found_to (accounts : list Account_ptr) f t pos x y j :
  snd (transfer_scan accounts f t pos x y) = Some j ->
  y = Some j \/
  exists a, (pos <= j)%nat /\ accounts !! (j - pos)%nat = Some a /\
            has_number t a = true.
Proof.
  revert pos x y. induction accounts as [|b rest IH]; intros pos x y; simpl.
  - auto.
  - intros H. apply IH in H as [H | (a & Hle & Hlook & Ha)].
    + destruct (has_number t b) eqn:Hb; [|auto].
      injection H as <-. right. exists b.
      split; [lia|]. now rewrite Nat.sub_diag.
    + right. exists a. split; [lia|]. split; [|exact Ha].
      replace (j - pos)%nat with (S (j - S pos)) by lia. exact Hlook.
Qed.

(** X25: [transfer] with a source or a destination number that no account
    has moves no money: no account and no counter changes, and
    "Error transferring money: One or both accounts not found" is
    printed. *)
Theorem transfer_unknown_account (w : World) (this : BankManagementSystem)
    (fromAccount toAccount : string) (amt : float) :
  Forall (fun a => has_number fromAccount a = false) (allAccounts this) \/
  Forall (fun a => has_number toAccount a = false) (allAccounts this) ->
  transfer env w this fromAccount toAccount amt =
    (print w ("Error transferring money: One or both accounts not found" ++ endl)%string,
     this).
Proof.
  intros Hnone. unfold transfer, transfer_try.
  destruct (transfer_scan (allAccounts this) fromAccount toAccount 0 None None)
    as [fromAcc toAcc] eqn:Hscan.
  assert (fromAcc = None \/ toAcc = None) as Hnull.
  { destruct Hnone as [H|H].
    - left. change fromAcc with (fst (fromAcc, toAcc)). rewrite <- Hscan.
      now apply transfer_scan_none_from.
    - right. change toAcc with (snd (fromAcc, toAcc)). rewrite <- Hscan.
      now apply transfer_scan_none_to. }
  destruct Hnull as [-> | ->]; [|destruct fromAcc]; simpl;
    now rewrite set_allAccounts_same.
Qed.

(** What a normal return of the virtual [withdraw] means for the
    account. *)
Lemma virtual_withdraw_Normal (w w' : World) (p p' : Account_ptr) amt :
  virtual_withdraw env w p amt = (w', p', Normal) ->
  accountNumber (Account_of p') = accountNumber (Account_of p) /\
  balance (Account_of p') =
    PrimFloat.sub (balance (Account_of p))
      match p with
      | to_Checking c => PrimFloat.add amt (transactionFee c)
      | _ => amt
      end /\
  (forall f, p = to_Fixed f -> exists f', p' = to_Fixed f').
Proof.
  destruct p as [a|a|a|a]; simpl.
  - destruct (Account_withdraw env w a amt) as ((w1 & a') & r) eqn:Hw.
    intros E. injection E as <- <- ->.
    apply Account_withdraw_Normal in Hw as (_ & _ & Hbal & Hnum & _).
    simpl. split; [exact Hnum|]. split; [exact Hbal|discriminate].
  - unfold Savings_withdraw.
    destruct (PrimFloat.ltb _ _); [discriminate|].
    destruct (Account_withdraw env w (Savings_Account a) amt)
      as ((w1 & a') & [|e]) eqn:Hw; [|discriminate].
    intros E. injection E as <- <-.
    apply Account_withdraw_Normal in Hw as (_ & _ & Hbal & Hnum & _).
    simpl. split; [exact Hnum|]. split; [exact Hbal|discriminate].
  - unfold Checking_withdraw.
    destruct (PrimFloat.leb amt 0%float); [discriminate|].
    destruct (PrimFloat.ltb _ _); [discriminate|].
    simpl. intros E. injection E as <- <-.
    simpl. split; [reflexivity|]. split; [reflexivity|discriminate].
  - unfold Fixed_withdraw.
    destruct (negb (isMatured a)); [discriminate|].
    destruct (PrimFloat.ltb _ _); [discriminate|].
    destruct (Account_withdraw env w (Fixed_Account a) amt)
      as ((w1 & a') & [|e]) eqn:Hw; [|discriminate].
    intros E. injection E as <- <-.
    apply Account_withdraw_Normal in Hw as (_ & _ & Hbal & Hnum & _).
    simpl. split; [exact Hnum|]. split; [exact Hbal|]. eauto.
Qed.

(** X26: a transfer into a fixed deposit loses the money.  When the last
    account with the source number accepts the withdrawal and the last
    account with the destination number is a fixed deposit, [transfer]
    debits the source, the deposit throws, nothing is credited and
    nothing is undone: the accounts afterwards are the old ones with only
    the source replaced by the debited one, and
    "Error transferring money: Additional deposits not allowed in fixed
    deposit account" is printed. *)
Theorem transfer_into_fixed_deposit_debits_only (w w1 : World)
    (this : BankManagementSystem)
    (before after before' after' : list Account_ptr)
    (source source' : Account_ptr) (destination : FixedDepositAccount)
    (fromAccount toAccount : string) (amt : float) :
  allAccounts this = before ++ source :: after ->
  has_number fromAccount source = true ->
  Forall (fun a => has_number fromAccount a = false) after ->
  allAccounts this = before' ++ to_Fixed destination :: after' ->
  has_number toAccount (to_Fixed destination) = true ->
  Forall (fun a => has_number toAccount a = false) after' ->
  virtual_withdraw env w source amt = (w1, source', Normal) ->
  transfer env w this fromAccount toAccount amt =
    (print w1
       ("Error transferring money: Additional deposits not allowed in fixed deposit account"
        ++ endl)%string,
     set_allAccounts this (before ++ source' :: after)) /\
  balance (Account_of source') =
    PrimFloat.sub (balance (Account_of source))
      match source with
      | to_Checking c => PrimFloat.add amt (transactionFee c)
      | _ => amt
      end.
Proof.
  intros Hfrom Hsource Hafter Hto Hdest Hafter' Hwithdraw.
  pose proof (virtual_withdraw_Normal _ _ _ _ _ Hwithdraw) as (_ & Hbal & Hfixed).
  split; [|exact Hbal].
  unfold transfer, transfer_try.
  destruct (transfer_scan (allAccounts this) fromAccount toAccount 0 None None)
    as [fromAcc toAcc] eqn:Hscan.
  assert (fromAcc = Some (length before)) as Hi0.
  { change fromAcc with (fst (fromAcc, toAcc)). rewrite <- Hscan, Hfrom.
    now rewrite transfer_scan_last_from. }
  assert (toAcc = Some (length before')) as Hj0.
  { change toAcc with (snd (fromAcc, toAcc)). rewrite <- Hscan, Hto.
    now rewrite transfer_scan_last_to. }
  subst fromAcc toAcc.
  assert (allAccounts this !! length before = Some source) as Hi.
  { rewrite Hfrom. apply list_lookup_middle. reflexivity. }
  assert (allAccounts this !! length before' = Some (to_Fixed destination)) as Hj.
  { rewrite Hto. apply list_lookup_middle. reflexivity. }
  rewrite Hi, Hwithdraw.
  assert (<[length before := source']> (allAccounts this) =
          before ++ source' :: after) as Hdebited.
  { rewrite Hfrom, insert_app_r_alt by lia. now rewrite Nat.sub_diag. }
  assert (exists f, (<[length before := source']> (allAccounts this))
                      !! length before' = Some (to_Fixed f)) as (f & Hlook).
  { destruct (Nat.eq_dec (length before) (length before')) as [Heq|Hne].
    - rewrite <- Heq in Hj. rewrite Hi in Hj. injection Hj as Hsame.
      destruct (Hfixed _ Hsame) as (f' & ->).
      exists f'. rewrite <- Heq. apply list_lookup_insert_eq.
      apply lookup_lt_Some in Hi. exact Hi.
    - exists destination. now rewrite list_lookup_insert_ne. }
  rewrite Hlook. simpl.
  rewrite list_insert_id by exact Hlook.
  now rewrite Hdebited.
Qed.

(** X27: whatever [transfer] does, it changes no account other than
    those with the source or the destination number: the number of
    accounts is as before, and an account with neither number is at its
    place unchanged. *)
Theorem transfer_frame (w : World) (this : BankManagementSystem)
    (fromAccount toAccount : string) (amt : float) :
  let '(w', this') := transfer env w this fromAccount toAccount amt in
  length (allAccounts this') = length (allAccounts this) /\
  dataFile this' = dataFile this /\
  forall k a,
    allAccounts this !! k = Some a ->
    has_number fromAccount a = false ->
    has_number toAccount a = false ->
    allAccounts this' !! k = Some a.
Proof.
  assert (forall w' accounts' r,
            transfer_try env w (allAccounts this) fromAccount toAccount amt =
              (w', accounts', r) ->
            length accounts' = length (allAccounts this) /\
            forall k a,
              allAccounts this !! k = Some a ->
              has_number fromAccount a = false ->
              has_number toAccount a = false ->
              accounts' !! k = Some a) as Htry.
  { intros w' accounts' r. unfold transfer_try.
    destruct (transfer_scan (allAccounts this) fromAccount toAccount 0 None None)
      as [fromAcc toAcc] eqn:Hscan.
    destruct fromAcc as [i|]; [destruct toAcc as [j|]|];
      try (intros E; injection E as <- <- <-; now split).
    assert (exists x, allAccounts this !! i = Some x /\
                      has_number fromAccount x = true) as (x & Hi & Hx).
    { destruct (transfer_scan_found_from (allAccounts this) fromAccount toAccount
                  0 None None i) as [H | (x & _ & Hlook & Hx)].
      - now rewrite Hscan.
      - discriminate H.
      - exists x. now rewrite Nat.sub_0_r in Hlook. }
    assert (exists y, allAccounts this !! j = Some y /\
                      has_number toAccount y = true) as (y & Hj & Hy).
    { destruct (transfer_scan_found_to (allAccounts this) fromAccount toAccount
                  0 None None j) as [H | (y & _ & Hlook & Hy)].
      - now rewrite Hscan.
      - discriminate H.
      - exists y. now rewrite Nat.sub_0_r in Hlook. }
    rewrite Hi.
    destruct (virtual_withdraw env w x amt) as ((w1 & x') & r1).
    assert (forall k a,
              allAccounts this !! k = Some a ->
              has_number fromAccount a = false ->
              (<[i := x']> (allAccounts this)) !! k = Some a) as Hframe1.
    { intros k a Hk Ha. rewrite list_lookup_insert_ne; [exact Hk|].
      intros ->. congruence. }
    destruct r1 as [|e].
    2:{ intros E. injection E as <- <- <-.
        split; [apply length_insert|]. intros k a Hk Ha _. now apply Hframe1. }
    destruct (<[i := x']> (allAccounts this) !! j) as [y'|] eqn:Hj'.
    2:{ intros E. injection E as <- <- <-.
        split; [apply length_insert|]. intros k a Hk Ha _. now apply Hframe1. }
    destruct (virtual_deposit env w1 y' amt) as ((w2 & y'') & r2).
    assert (length (<[j := y'']> (<[i := x']> (allAccounts this))) =
            length (allAccounts this)) as Hlen.
    { now rewrite !length_insert. }
    assert (forall k a,
              allAccounts this !! k = Some a ->
              has_number fromAccount a = false ->
              has_number toAccount a = false ->
              (<[j := y'']> (<[i := x']> (allAccounts this))) !! k = Some a)
      as Hframe2.
    { intros k a Hk Ha Hb. rewrite list_lookup_insert_ne; [now apply Hframe1|].
      intros ->. congruence. }
    destruct r2 as [|e]; intros E; injection E as <- <- <-; now split. }
  unfold transfer.
  destruct (transfer_try env w (allAccounts this) fromAccount toAccount amt)
    as ((w' & accounts') & r) eqn:Htransfer.
  destruct (Htry _ _ _ eq_refl) as (Hlen & Hframe).
  destruct r as [|e]; simpl; (split; [exact Hlen|split; [reflexivity|exact Hframe]]).
Qed.

(** X28: a transfer between two different accounts that both accept it.
    When the last account with the source number accepts the withdrawal
    and the last account with the destination number, at another place,
    then accepts the deposit, [transfer] leaves the accounts with exactly
    these two replaced by the debited and the credited one, and the last
    thing printed is "Transfer of $<amount> completed successfully!". *)
Theorem transfer_completed (w w1 w2 : World) (this : BankManagementSystem)
    (before after before' after' : list Account_ptr)
    (source source' destination destination' : Account_ptr)
    (fromAccount toAccount : string) (amt : float) :
  allAccounts this = before ++ source :: after ->
  has_number fromAccount source = true ->
  Forall (fun a => has_number fromAccount a = false) after ->
  allAccounts this = before' ++ destination :: after' ->
  has_number toAccount destination = true ->
  Forall (fun a => has_number toAccount a = false) after' ->
  length before <> length before' ->
  virtual_withdraw env w source amt = (w1, source', Normal) ->
  virtual_deposit env w1 destination amt = (w2, destination', Normal) ->
  transfer env w this fromAccount toAccount amt =
    (print w2 ("Transfer of $" ++ show_double env amt ++
               " completed successfully!" ++ endl)%string,
     set_allAccounts this
       (<[length before' := destination']>
          (<[length before := source']> (allAccounts this)))).
Proof.
  intros Hfrom Hsource Hafter Hto Hdest Hafter' Hne Hwithdraw Hdeposit.
  unfold transfer, transfer_try.
  destruct (transfer_scan (allAccounts this) fromAccount toAccount 0 None None)
    as [fromAcc toAcc] eqn:Hscan.
  assert (fromAcc = Some (length before)) as Hi0.
  { change fromAcc with (fst (fromAcc, toAcc)). rewrite <- Hscan, Hfrom.
    now rewrite transfer_scan_last_from. }
  assert (toAcc = Some (length before')) as Hj0.
  { change toAcc with (snd (fromAcc, toAcc)). rewrite <- Hscan, Hto.
    now rewrite transfer_scan_last_to. }
  subst fromAcc toAcc.
  assert (allAccounts this !! length before = Some source) as Hi.
  { rewrite Hfrom. apply list_lookup_middle. reflexivity. }
  assert (allAccounts this !! length before' = Some destination) as Hj.
  { rewrite Hto. apply list_lookup_middle. reflexivity. }
  rewrite Hi, Hwithdraw.
  rewrite list_lookup_insert_ne by exact Hne.
  rewrite Hj, Hdeposit. reflexivity.
Qed.

End BankSystemFacts.

(** Examples on the sample bank. *)

Section BankSystemExamples.
Import Int32 BankManagement BankAccounts.

Lemma BMS_deposit_unknown_account_witness :
  BMS_deposit sample_env start_of_day sample_bank "ACC9" 100%float =
    (print start_of_day ("Error depositing money: Account not found" ++ endl)%string,
     sample_bank).
Proof.
  apply (BMS_deposit_unknown_account sample_env start_of_day sample_bank "ACC9" 100%float).
  repeat constructor.
Defined.

Lemma BMS_deposit_first_match_witness :
  BMS_deposit sample_env start_of_day sample_bank "ACC3" 100%float =
    (print start_of_day
       ("Error depositing money: Additional deposits not allowed in fixed deposit account"
        ++ endl)%string,
     sample_bank).
Proof.
  apply (BMS_deposit_first_match sample_env start_of_day sample_bank
           [to_Account account_1000; to_Savings savings_500] []
           (to_Fixed fixed_5000) "ACC3" 100%float).
  - reflexivity.
  - repeat constructor.
  - reflexivity.
Defined.

Lemma transfer_unknown_account_witness :
  transfer sample_env start_of_day sample_bank "ACC1" "ACC9" 100%float =
    (print start_of_day
       ("Error transferring money: One or both accounts not found" ++ endl)%string,
     sample_bank).
Proof.
  apply (transfer_unknown_account sample_env start_of_day sample_bank
           "ACC1" "ACC9" 100%float).
  right. repeat constructor.
Defined.

Lemma transfer_into_fixed_deposit_debits_only_witness :
  exists w1 source',
    transfer sample_env start_of_day sample_bank "ACC1" "ACC3" 100%float =
      (print w1
         ("Error transferring money: Additional deposits not allowed in fixed deposit account"
          ++ endl)%string,
       set_allAccounts sample_bank
         ([] ++ source' :: [to_Savings savings_500; to_Fixed fixed_5000])) /\
    balance (Account_of source') = PrimFloat.sub 1000%float 100%float.
Proof.
  eexists _, _.
  apply (transfer_into_fixed_deposit_debits_only sample_env start_of_day _ sample_bank
           [] [to_Savings savings_500; to_Fixed fixed_5000]
           [to_Account account_1000; to_Savings savings_500] []
           (to_Account account_1000) _ fixed_5000 "ACC1" "ACC3" 100%float).
  - reflexivity.
  - reflexivity.
  - repeat constructor.
  - reflexivity.
  - reflexivity.
  - repeat constructor.
  - reflexivity.
Defined.

Lemma transfer_completed_witness :
  exists w2 accounts,
    transfer sample_env start_of_day sample_bank "ACC1" "ACC2" 100%float =
      (print w2 ("Transfer of $" ++ show_double sample_env 100%float ++
                 " completed successfully!" ++ endl)%string,
       set_allAccounts sample_bank accounts).
Proof.
  eexists _, _.
  eapply (transfer_completed sample_env start_of_day _ _ sample_bank
           [] [to_Savings savings_500; to_Fixed fixed_5000]
           [to_Account account_1000] [to_Fixed fixed_5000]
           (to_Account account_1000) _ (to_Savings savings_500) _
           "ACC1" "ACC2" 100%float).
  - reflexivity.
  - reflexivity.
  - repeat constructor.
  - reflexivity.
  - reflexivity.
  - repeat constructor.
  - simpl. lia.
  - reflexivity.
  - reflexivity.
Defined.

End BankSystemExamples.
